(** * DownloadRedditImages: the download orchestrator of [downloaders.py]

    A shallow embedding of [MediaDownloader.download_post] and of the
    methods of [MediaDownloadHelper], followed by the properties of the
    orchestrator that the specification states.

    Python values are modelled by [PyVal], the effects of the program
    (files, the shared counter, network requests, log lines) by an
    explicit [World] threaded through a state-and-exception monad [M],
    and the collaborators that live outside [downloaders.py] by the
    fields of an environment [Env]. *)

From Stdlib Require Import ZArith String Ascii List Bool Lia.
From stdpp Require Import base option list gmap strings.

Local Open Scope Z_scope.
Local Open Scope string_scope.

(** ** Python values *)

(** The values a decoded JSON document is made of.  A [dict] keeps its
    items as an association list read from the front. *)
#[warnings="-register-all"]
Inductive PyVal : Type :=
  | PNone
  | PBool (b : bool)
  | PInt (z : Z)
  | PFloat (bits : Z)
  | PStr (s : string)
  | PList (xs : list PyVal)
  | PDict (kvs : list (string * PyVal)).

Abbreviation Dict := (list (string * PyVal)).

(** Instances of Python's [Exception]: class name and message. *)
Record exn : Type := Exn { exn_class : string; exn_msg : string }.

Inductive Res (A : Type) : Type :=
  | Ok (a : A)
  | Raise (e : exn).
Arguments Ok {A} a.
Arguments Raise {A} e.

Definition is_none (v : PyVal) : bool :=
  match v with PNone => true | _ => false end.

(** [k in d] for a dict [d]. *)
Fixpoint dict_has (k : string) (d : Dict) : bool :=
  match d with
  | [] => false
  | (k', _) :: d' => if String.eqb k k' then true else dict_has k d'
  end.

(** [d.get(k)]: the value, or [None] when the key is missing. *)
Fixpoint dict_get (k : string) (d : Dict) : PyVal :=
  match d with
  | [] => PNone
  | (k', v) :: d' => if String.eqb k k' then v else dict_get k d'
  end.

(** The name of the type of a value, as Python prints it in the
    message of an exception. *)
Definition py_type_name (v : PyVal) : string :=
  match v with
  | PNone => "NoneType"
  | PBool _ => "bool"
  | PInt _ => "int"
  | PFloat _ => "float"
  | PStr _ => "str"
  | PList _ => "list"
  | PDict _ => "dict"
  end.

(** The messages of the exceptions below are those of CPython 3.11 to
    3.13; a message is only ever copied into a log line. *)

(** [d[k]] for a dict [d]: raises [KeyError] when the key is missing.
    The message of a [KeyError] is the [repr] of the key, which for a
    key of plain characters, as all the keys of [downloaders.py] are,
    is the key between single quotes. *)
Fixpoint dict_item (k : string) (d : Dict) : Res PyVal :=
  match d with
  | [] => Raise (Exn "KeyError" ("'" ++ k ++ "'"))
  | (k', v) :: d' => if String.eqb k k' then Ok v else dict_item k d'
  end.

(** [v[k]] with a string key [k], for any value [v]. *)
Definition py_getitem_str (v : PyVal) (k : string) : Res PyVal :=
  match v with
  | PDict kvs => dict_item k kvs
  | PList _ => Raise (Exn "TypeError" "list indices must be integers or slices, not str")
  | PStr _ => Raise (Exn "TypeError" "string indices must be integers, not 'str'")
  | _ =>
      Raise (Exn "TypeError" ("'" ++ py_type_name v ++ "' object is not subscriptable"))
  end.

(** [v[0]], for any value [v].  The keys of a decoded JSON object are
    strings, so the integer key 0 is never found in one. *)
Definition py_getitem_0 (v : PyVal) : Res PyVal :=
  match v with
  | PList (x :: _) => Ok x
  | PList [] => Raise (Exn "IndexError" "list index out of range")
  | PStr (String c _) => Ok (PStr (String c EmptyString))
  | PStr EmptyString => Raise (Exn "IndexError" "string index out of range")
  | PDict _ => Raise (Exn "KeyError" "0")
  | _ =>
      Raise (Exn "TypeError" ("'" ++ py_type_name v ++ "' object is not subscriptable"))
  end.

(** ** Strings: [in] and [str.replace] *)

(** [needle in hay] for two strings. *)
Fixpoint str_contains (needle hay : string) : bool :=
  if String.prefix needle hay then true
  else match hay with
       | EmptyString => false
       | String _ hay' => str_contains needle hay'
       end.

(** [s.replace(old, new)] for a non-empty [old]: the occurrences of
    [old] are found from the left and do not overlap.  [skip] counts
    the characters of a matched occurrence still to be dropped. *)
Fixpoint replace_from (old new : string) (skip : nat) (s : string) : string :=
  match s with
  | EmptyString => EmptyString
  | String c s' =>
      match skip with
      | S k => replace_from old new k s'
      | O =>
          if String.prefix old s
          then new ++ replace_from old new (Nat.pred (String.length old)) s'
          else String c (replace_from old new O s')
      end
  end.

Definition str_replace (old new s : string) : string :=
  replace_from old new O s.

(** ['gifv' in v] for any value: substring test on a string, membership
    among the elements of a list or the keys of a dict, [TypeError] on
    a value that is not a container. *)
Definition py_contains_str (needle : string) (v : PyVal) : Res bool :=
  match v with
  | PStr s => Ok (str_contains needle s)
  | PList xs =>
      Ok (existsb (fun x => match x with PStr t => String.eqb t needle | _ => false end) xs)
  | PDict kvs => Ok (dict_has needle kvs)
  | _ =>
      Raise (Exn "TypeError"
               ("argument of type '" ++ py_type_name v ++ "' is not iterable"))
  end.

(** [v.replace(old, new)]: only [str] has the method. *)
Definition py_replace (old new : string) (v : PyVal) : Res PyVal :=
  match v with
  | PStr s => Ok (PStr (str_replace old new s))
  | _ =>
      Raise (Exn "AttributeError"
               ("'" ++ py_type_name v ++ "' object has no attribute 'replace'"))
  end.

(** Whether a value can be a dict key: lists and dicts are unhashable. *)
Definition hashable (v : PyVal) : bool :=
  match v with
  | PList _ | PDict _ => false
  | _ => true
  end.

(** ** The world the program acts on *)

Abbreviation bytes := (list Byte.byte).

(** What the program does to its surroundings, in the order it does it. *)
Inductive Event : Type :=
  | EvLookup (media_url : PyVal) (domain_type : string)
  | EvGet (download_url : PyVal)
  | EvIncrement (download_successful : bool)
  | EvLog (line : string).

(** The files under the download directory, the value of the shared
    counter and the events so far (the latest last). *)
Record World : Type := mkWorld {
  fs : gmap string bytes;
  count : Z;
  trace : list Event
}.

Definition emit (ev : Event) (w : World) : World :=
  mkWorld (fs w) (count w) (trace w ++ [ev])%list.

Definition set_fs (f : gmap string bytes) (w : World) : World :=
  mkWorld f (count w) (trace w).

Definition set_count (c : Z) (w : World) : World :=
  mkWorld (fs w) c (trace w).

(** ** State and exceptions *)

Definition M (A : Type) : Type := World -> Res A * World.

Definition ret {A} (a : A) : M A := fun w => (Ok a, w).

Definition raise {A} (e : exn) : M A := fun w => (Raise e, w).

Definition bind {A B} (m : M A) (k : A -> M B) : M B :=
  fun w =>
    match m w with
    | (Ok a, w') => k a w'
    | (Raise e, w') => (Raise e, w')
    end.

(** [try: body except Exception as e: handler e]. *)
Definition try_except {A} (body : M A) (handler : exn -> M A) : M A :=
  fun w =>
    match body w with
    | (Ok a, w') => (Ok a, w')
    | (Raise e, w') => handler e w'
    end.

(** A pure computation that may raise, run inside [M]. *)
Definition lift {A} (r : Res A) : M A := fun w => (r, w).

(** A call that raises when its fault oracle names an exception. *)
Definition may_raise (f : option exn) : M unit :=
  match f with
  | Some e => raise e
  | None => ret tt
  end.

Notation "'let*' x ':=' m 'in' k" := (bind m (fun x => k))
  (at level 10, x name, m at level 100, k at level 200).
Notation "'do*' m 'in' k" := (bind m (fun _ => k))
  (at level 10, m at level 100, k at level 200).

(** [logging.error(prefix + str(e))]. *)
Definition logging_error (pre : string) (e : exn) : M unit :=
  fun w => (Ok tt, emit (EvLog (pre ++ exn_msg e)) w).

(** ** Collaborators outside [downloaders.py] *)

(** The two ways [construct_local_filename] is called: with
    [download_url=...] or with [file_suffix=...]. *)
Inductive NameArg : Type :=
  | ByUrl (download_url : PyVal)
  | BySuffix (file_suffix : string).

(** What a streamed [requests.get] answers: the exception of
    [raise_for_status] if the status is not a success, the chunks
    [iter_content] yields, and the exception that ends the iteration
    early if the connection breaks. *)
Record Response : Type := mkResponse {
  status_error : option exn;
  iter_content : list bytes;
  stream_error : option exn
}.

(** The behaviour of everything [downloaders.py] imports or calls and
    does not define.  The functions of [utils] and the network are
    taken as they come; the file system and the counter follow the
    definitions below, and the [_fault] fields say when one of their
    calls raises instead. *)
Record Env : Type := mkEnv {
  construct_local_filename : PyVal -> NameArg -> string -> Res string;
  get_gfycat_redgif_url : PyVal -> string -> Res PyVal;
  requests_get : PyVal -> Res Response;
  open_fault : string -> option exn;
  write_fault : string -> bytes -> bytes -> option exn;
  check_fault : string -> option bytes -> option exn;
  get_counter_fault : Z -> option exn;
  increment_fault : bool -> Z -> option exn
}.

(** The class attributes [MediaDownloader.init] sets; the third one,
    [global_counter], is the [count] of the world. *)
Record MediaDownloader : Type := mkMediaDownloader {
  local_download_dir : string;
  max_posts_download : Z
}.

(** The attributes [MediaDownloadHelper.__init__] sets. *)
Record MediaDownloadHelper : Type := mkMediaDownloadHelper {
  _domain : PyVal;
  _media_url : PyVal;
  _title : PyVal;
  _post_details : Dict;
  _local_download_dir : string
}.

Section Program.

Variable env : Env.

(** *** The shared counter *)

(** Modelled from the spec: [MultiProcessingCounterAndStatusBar] is not
    part of [downloaders.py].  [getCount] returns the number of
    successful downloads. *)
Definition get_counter_value : M Z :=
  fun w =>
    match get_counter_fault env (count w) with
    | Some e => (Raise e, w)
    | None => (Ok (count w), w)
    end.

(** Modelled from the spec: [recordAttempt(succeeded)] increments the
    success count iff [succeeded]. *)
Definition increment_counter (download_successful : bool) : M unit :=
  fun w =>
    let w1 := emit (EvIncrement download_successful) w in
    match increment_fault env download_successful (count w) with
    | Some e => (Raise e, w1)
    | None =>
        (Ok tt, set_count (if download_successful then count w + 1 else count w) w1)
    end.

(** *** The result validator *)

(** Modelled from the spec: [utils.check_if_empty_and_delete_file] is
    not part of [downloaders.py].  A path that does not exist is
    invalid; a file of zero bytes is invalid and is deleted; a file
    with bytes is valid.  The result is [is_empty]. *)
Definition check_if_empty_and_delete_file (file_path : string) : M bool :=
  fun w =>
    match check_fault env file_path (fs w !! file_path) with
    | Some e => (Raise e, w)
    | None =>
        match fs w !! file_path with
        | None => (Ok true, w)
        | Some [] => (Ok true, set_fs (delete file_path (fs w)) w)
        | Some (_ :: _) => (Ok false, w)
        end
    end.

(** *** The file system and the network, as [_core_download] uses them *)

(** [os.path.exists(path)]. *)
Definition path_exists (path : string) : M bool :=
  fun w => (Ok (bool_decide (is_Some (fs w !! path))), w).

(** [requests.get(download_url, stream=True)]. *)
Definition http_get (download_url : PyVal) : M Response :=
  fun w => (requests_get env download_url, emit (EvGet download_url) w).

(** [open(path, 'wb')]: the file is created, or truncated, empty. *)
Definition open_wb (path : string) : M unit :=
  fun w =>
    match open_fault env path with
    | Some e => (Raise e, w)
    | None => (Ok tt, set_fs (<[path := []]> (fs w)) w)
    end.

(** [f.write(chunk)] on the file opened at [path]. *)
Definition file_write (path : string) (chunk : bytes) : M unit :=
  fun w =>
    let sofar := default [] (fs w !! path) in
    match write_fault env path sofar chunk with
    | Some e => (Raise e, w)
    | None => (Ok tt, set_fs (<[path := (sofar ++ chunk)%list]> (fs w)) w)
    end.

(** The loop [for chunk in r.iter_content(...): if chunk: f.write(chunk)]. *)
Fixpoint write_chunks (path : string) (chunks : list bytes)
    (broken : option exn) : M unit :=
  match chunks with
  | [] => may_raise broken
  | chunk :: rest =>
      do* (match chunk with
           | [] => ret tt
           | _ :: _ => file_write path chunk
           end) in
      write_chunks path rest broken
  end.

(** *** [MediaDownloadHelper] *)

(** [_core_download]: skip when the file exists, otherwise stream the
    response to the file; every exception is logged and swallowed, and
    the method returns [None] either way. *)
Definition _core_download (download_url : PyVal) (local_filename : string) : M unit :=
  try_except
    (let* present := path_exists local_filename in
     if present then ret tt
     else
       let* r := http_get download_url in
       do* may_raise (status_error r) in
       do* open_wb local_filename in
       write_chunks local_filename (iter_content r) (stream_error r))
    (fun e => logging_error "Error in core download: " e).

(** [_download_to_local_file]: the file name is built outside the
    [try]. *)
Definition _download_to_local_file (self : MediaDownloadHelper)
    (download_url : PyVal) : M (option string) :=
  let* local_filename :=
    lift (construct_local_filename env (_title self) (ByUrl download_url)
            (_local_download_dir self)) in
  try_except
    (do* _core_download download_url local_filename in
     ret (Some local_filename))
    (fun e => do* logging_error "Error in core download: " e in ret None).

(** [self._post_details['preview']['images'][0]['source']['url']]. *)
Definition preview_url (post_details : Dict) : Res PyVal :=
  match dict_item "preview" post_details with
  | Raise e => Raise e
  | Ok preview =>
      match py_getitem_str preview "images" with
      | Raise e => Raise e
      | Ok images =>
          match py_getitem_0 images with
          | Raise e => Raise e
          | Ok image =>
              match py_getitem_str image "source" with
              | Raise e => Raise e
              | Ok source => py_getitem_str source "url"
              end
          end
      end
  end.

Definition _attempt_naive_preview_download (self : MediaDownloadHelper)
    : M (option string) :=
  try_except
    (if negb (dict_has "preview" (_post_details self)) then ret None
     else
       let* preview_url := lift (preview_url (_post_details self)) in
       let* local_filename :=
         lift (construct_local_filename env (_title self) (BySuffix ".jpg")
                 (_local_download_dir self)) in
       do* _core_download preview_url local_filename in
       ret (Some local_filename))
    (fun e => do* logging_error "Error downloading naive preview: " e in ret None).

Definition do_nothing (self : MediaDownloadHelper) : M (option string) :=
  ret None.

(** [get_gfycat_redgif_url(media_url=..., domain_type=...)] of [utils]. *)
Definition lookup_url (media_url : PyVal) (domain_type : string) : M PyVal :=
  fun w =>
    (get_gfycat_redgif_url env media_url domain_type,
     emit (EvLookup media_url domain_type) w).

Definition gfycat (self : MediaDownloadHelper) : M (option string) :=
  try_except
    (let* gfycat_url := lookup_url (_media_url self) "gfycat" in
     if negb (is_none gfycat_url)
     then _download_to_local_file self gfycat_url
     else ret None)
    (fun e => do* logging_error "Error downloading from gfycat: " e in ret None).

(** [imgur] assigns the rewritten URL to [self._media_url]; nothing
    reads that attribute after the call below, so the new value is
    kept in a local name. *)
Definition imgur (self : MediaDownloadHelper) : M (option string) :=
  try_except
    (let* has_gifv := lift (py_contains_str "gifv" (_media_url self)) in
     let* media_url :=
       if has_gifv then lift (py_replace ".gifv" ".mp4" (_media_url self))
       else ret (_media_url self) in
     _download_to_local_file self media_url)
    (fun e => do* logging_error "Error downloading from imgur: " e in ret None).

Definition ireddit (self : MediaDownloadHelper) : M (option string) :=
  try_except
    (_download_to_local_file self (_media_url self))
    (fun e => do* logging_error "Error downloading from i.redd.it: " e in ret None).

Definition redgifs (self : MediaDownloadHelper) : M (option string) :=
  try_except
    (let* redgif_url := lookup_url (_media_url self) "redgif" in
     if negb (is_none redgif_url)
     then _download_to_local_file self redgif_url
     else ret None)
    (fun e => do* logging_error "Error downloading from redgifs: " e in ret None).

(** [domain_mappings.get(self._domain, self.do_nothing)]: looking up an
    unhashable key raises [TypeError]. *)
Definition domain_mappings (domain : PyVal)
    : Res (MediaDownloadHelper -> M (option string)) :=
  match domain with
  | PStr d =>
      if String.eqb d "gfycat.com" then Ok gfycat
      else if String.eqb d "i.imgur.com" then Ok imgur
      else if String.eqb d "i.redd.it" then Ok ireddit
      else if String.eqb d "redgifs.com" then Ok redgifs
      else Ok do_nothing
  | PList _ => Raise (Exn "TypeError" "unhashable type: 'list'")
  | PDict _ => Raise (Exn "TypeError" "unhashable type: 'dict'")
  | _ => Ok do_nothing
  end.

(** [a or b] where the local variable [b] may not have been assigned:
    it is read only when [a] is false. *)
Definition py_or (a : bool) (b : option bool) : Res bool :=
  if a then Ok true
  else match b with
       | Some b => Ok b
       | None => Raise (Exn "UnboundLocalError" "naive_download_successful")
       end.

(** The [try] block of [download]. *)
Definition download_body (self : MediaDownloadHelper) : M bool :=
  let* handler := lift (domain_mappings (_domain self)) in
  let* local_filename := handler self in
  let* download_successful :=
    match local_filename with
    | Some name =>
        let* is_empty := check_if_empty_and_delete_file name in
        ret (if is_empty then false else true)
    | None => ret false
    end in
  let* naive_download_successful :=
    if negb download_successful then
      let* naive_local_filename := _attempt_naive_preview_download self in
      match naive_local_filename with
      | Some name =>
          let* naive_is_empty := check_if_empty_and_delete_file name in
          ret (Some (if naive_is_empty then false else true))
      | None => ret (Some false)
      end
    else ret None in
  lift (py_or download_successful naive_download_successful).

Definition download (self : MediaDownloadHelper) : M bool :=
  try_except (download_body self)
    (fun e => do* logging_error "Error downloading media: " e in ret false).

(** *** [MediaDownloader] *)

Variable cls : MediaDownloader.

(** The helper [download_post] builds for a post. *)
Definition helper_of (post_details : Dict) : MediaDownloadHelper :=
  mkMediaDownloadHelper (dict_get "domain" post_details)
    (dict_get "url" post_details) (dict_get "title" post_details)
    post_details (local_download_dir cls).

(** The [try] block of [download_post]: it returns [None], or [False]
    on its second [return]. *)
Definition download_post_body (post_details : Dict) : M PyVal :=
  let* counter_value := get_counter_value in
  if counter_value >=? max_posts_download cls then ret PNone
  else
    let domain := dict_get "domain" post_details in
    let media_url := dict_get "url" post_details in
    if is_none domain || is_none media_url then ret (PBool false)
    else
      let media_download_helper := helper_of post_details in
      let* download_successful := download media_download_helper in
      do* increment_counter download_successful in
      ret PNone.

Definition download_post (post_details : Dict) : M PyVal :=
  try_except (download_post_body post_details)
    (fun e => do* logging_error "Error downloading post: " e in ret PNone).

End Program.

(** ** The [try] blocks of the methods *)

(** The statements inside the [try] of each method, without its
    [except]; the lemmas [core_download_try] to [naive_preview_try]
    below show that each method is its block under its handler. *)

Definition core_download_body (env : Env) (download_url : PyVal)
    (local_filename : string) : M unit :=
  let* present := path_exists local_filename in
  if present then ret tt
  else
    let* r := http_get env download_url in
    do* may_raise (status_error r) in
    do* open_wb env local_filename in
    write_chunks env local_filename (iter_content r) (stream_error r).

Definition gfycat_body (env : Env) (self : MediaDownloadHelper)
    : M (option string) :=
  let* gfycat_url := lookup_url env (_media_url self) "gfycat" in
  if negb (is_none gfycat_url)
  then _download_to_local_file env self gfycat_url
  else ret None.

Definition imgur_body (env : Env) (self : MediaDownloadHelper)
    : M (option string) :=
  let* has_gifv := lift (py_contains_str "gifv" (_media_url self)) in
  let* media_url :=
    if has_gifv then lift (py_replace ".gifv" ".mp4" (_media_url self))
    else ret (_media_url self) in
  _download_to_local_file env self media_url.

Definition ireddit_body (env : Env) (self : MediaDownloadHelper)
    : M (option string) :=
  _download_to_local_file env self (_media_url self).

Definition redgifs_body (env : Env) (self : MediaDownloadHelper)
    : M (option string) :=
  let* redgif_url := lookup_url env (_media_url self) "redgif" in
  if negb (is_none redgif_url)
  then _download_to_local_file env self redgif_url
  else ret None.

Definition naive_preview_body (env : Env) (self : MediaDownloadHelper)
    : M (option string) :=
  if negb (dict_has "preview" (_post_details self)) then ret None
  else
    let* preview_url := lift (preview_url (_post_details self)) in
    let* local_filename :=
      lift (construct_local_filename env (_title self) (BySuffix ".jpg")
              (_local_download_dir self)) in
    do* _core_download env preview_url local_filename in
    ret (Some local_filename).

(** ** Vocabulary of the statements *)

(** The URLs requested with [requests.get], in order. *)
Fixpoint gets_of (evs : list Event) : list PyVal :=
  match evs with
  | [] => []
  | EvGet u :: evs' => u :: gets_of evs'
  | _ :: evs' => gets_of evs'
  end.

(** The flags passed to [increment_counter], in order. *)
Fixpoint incrs_of (evs : list Event) : list bool :=
  match evs with
  | [] => []
  | EvIncrement b :: evs' => b :: incrs_of evs'
  | _ :: evs' => incrs_of evs'
  end.

(** The events of [w'] that come after those of [w]. *)
Definition new_events (w w' : World) : list Event :=
  drop (length (trace w)) (trace w').

(** The keys of [domain_mappings]. *)
Definition recognized_hosts : list string :=
  ["gfycat.com"; "i.imgur.com"; "i.redd.it"; "redgifs.com"].

(** [s.endswith(suffix)]. *)
Fixpoint str_ends_with (suffix s : string) : bool :=
  if String.eqb suffix s then true
  else match s with
       | EmptyString => false
       | String _ s' => str_ends_with suffix s'
       end.

(** The URL [imgur] downloads from, for a media URL that is a string. *)
Definition imgur_target (media_url : string) : string :=
  if str_contains "gifv" media_url
  then str_replace ".gifv" ".mp4" media_url
  else media_url.

(** The quota check of [download_post] reads the counter and finds it
    below the maximum. *)
Definition under_quota (env : Env) (cls : MediaDownloader) (w : World) : Prop :=
  get_counter_fault env (count w) = None /\ count w < max_posts_download cls.

(** The post has both fields [download_post] asks for. *)
Definition well_formed (post_details : Dict) : Prop :=
  is_none (dict_get "domain" post_details) = false /\
  is_none (dict_get "url" post_details) = false.

(** The first half of [download_body]: the handler of the domain, then
    the validation of the file it names. *)
Definition primary_stage (env : Env) (self : MediaDownloadHelper) : M bool :=
  let* handler := lift (domain_mappings env (_domain self)) in
  let* local_filename := handler self in
  match local_filename with
  | Some name =>
      let* is_empty := check_if_empty_and_delete_file env name in
      ret (negb is_empty)
  | None => ret false
  end.

(** The second half of [download_body]: the preview download, then the
    validation of the file it names. *)
Definition fallback_stage (env : Env) (self : MediaDownloadHelper) : M bool :=
  let* naive_local_filename := _attempt_naive_preview_download env self in
  match naive_local_filename with
  | Some name =>
      let* naive_is_empty := check_if_empty_and_delete_file env name in
      ret (negb naive_is_empty)
  | None => ret false
  end.

(** The name of the preview file of a helper. *)
Definition preview_name (env : Env) (self : MediaDownloadHelper) : Res string :=
  construct_local_filename env (_title self) (BySuffix ".jpg")
    (_local_download_dir self).

(** The requests the fallback makes from world [w]: one for the preview
    URL when there is one, its file name can be built and the file is
    not there yet, none otherwise. *)
Definition fallback_gets (env : Env) (self : MediaDownloadHelper) (w : World)
    : list PyVal :=
  if dict_has "preview" (_post_details self) then
    match preview_url (_post_details self), preview_name env self with
    | Ok u, Ok name =>
        match fs w !! name with
        | None => [u]
        | Some _ => []
        end
    | _, _ => []
    end
  else [].

(** The world [w] after the events [evs], files and counter as they
    are. *)
Definition emits (evs : list Event) (w : World) : World :=
  mkWorld (fs w) (count w) (trace w ++ evs)%list.

(** The lookup that the handler of the domain makes before anything
    else: [gfycat] and [redgifs] ask [get_gfycat_redgif_url] on every
    run, the other handlers do not. *)
Definition lookups_of (self : MediaDownloadHelper) : list Event :=
  match _domain self with
  | PStr d =>
      if String.eqb d "gfycat.com" then [EvLookup (_media_url self) "gfycat"]
      else if String.eqb d "i.imgur.com" then []
      else if String.eqb d "i.redd.it" then []
      else if String.eqb d "redgifs.com" then [EvLookup (_media_url self) "redgif"]
      else []
  | _ => []
  end.

(** A later run happens among collaborators [env2] that need not be
    those of the first run, [env].  File names are built as before: *)
Definition same_names (env env2 : Env) : Prop :=
  forall title arg dir,
    construct_local_filename env2 title arg dir
    = construct_local_filename env title arg dir.

(** the lookup answers as before for the media URL of the post: *)
Definition same_lookup (env env2 : Env) (self : MediaDownloadHelper) : Prop :=
  forall domain_type,
    get_gfycat_redgif_url env2 (_media_url self) domain_type
    = get_gfycat_redgif_url env (_media_url self) domain_type.

(** the validator reads every path it is given. *)
Definition validator_ok (env2 : Env) : Prop :=
  forall path content, check_fault env2 path content = None.

(** A domain that can be looked up in [domain_mappings] and is none
    of its keys. *)
Definition unrecognized (domain : PyVal) : Prop :=
  hashable domain = true /\
  forall host, domain = PStr host -> ~ In host recognized_hosts.

(** ** Concurrent workers around the shared counter *)

Module Pool.

(** Modelled from the spec: the pool of workers is not part of
    [downloaders.py].  Each worker runs [download_post] one post after
    the other; the counter is touched by the read of the quota check
    and by the later [increment_counter], each of them atomic, and
    the steps of the workers interleave.  A worker is [InFlight] from
    a quota check that let it pass to the end of that call. *)
Inductive Phase : Type :=
  | Idle
  | InFlight.

Record State : Type := mkState {
  shared : Z;
  phases : list Phase
}.

Definition set_phase (i : nat) (ph : Phase) (s : State) : State :=
  mkState (shared s) (<[i := ph]> (phases s)).

(** One step of one worker [i]: the quota check that returns at once,
    the quota check that lets the worker on, [increment_counter] at the
    end of the call, or the end of a call that never reaches it (the
    [return False] of a post without domain or url). *)
Inductive step (maximum : Z) : State -> State -> Prop :=
  | step_skip s i :
      phases s !! i = Some Idle ->
      shared s >= maximum ->
      step maximum s s
  | step_pass s i :
      phases s !! i = Some Idle ->
      shared s < maximum ->
      step maximum s (set_phase i InFlight s)
  | step_record s i (download_successful : bool) :
      phases s !! i = Some InFlight ->
      step maximum s
        (mkState (if download_successful then shared s + 1 else shared s)
           (<[i := Idle]> (phases s)))
  | step_abandon s i :
      phases s !! i = Some InFlight ->
      step maximum s (set_phase i Idle s).

Inductive reachable (maximum : Z) (s0 : State) : State -> Prop :=
  | reach_start : reachable maximum s0 s0
  | reach_step s s' :
      reachable maximum s0 s -> step maximum s s' -> reachable maximum s0 s'.

(** The number of workers in flight. *)
Fixpoint in_flight (phs : list Phase) : Z :=
  match phs with
  | [] => 0
  | InFlight :: phs' => 1 + in_flight phs'
  | Idle :: phs' => in_flight phs'
  end.

(** [n] workers, none of them in a call. *)
Definition start (c : Z) (n : nat) : State := mkState c (replicate n Idle).

(** The counter and the workers in flight together stay within the
    maximum plus the number of workers less one. *)
Definition soft_cap (maximum : Z) (s : State) : Prop :=
  shared s + in_flight (phases s) <= maximum + Z.of_nat (length (phases s)) - 1.

End Pool.

(** ** Sample environments for the examples *)

Module Sample.

(** A file name built from the title and the URL or the suffix. *)
Definition name_of (title : PyVal) (arg : NameArg) (dir : string) : Res string :=
  match title, arg with
  | PStr t, ByUrl (PStr u) => Ok (dir ++ "/" ++ t ++ "_" ++ u)
  | PStr t, BySuffix sfx => Ok (dir ++ "/" ++ t ++ sfx)
  | _, _ => Raise (Exn "TypeError" "expected str")
  end.

(** No fault in the file system, the validator or the counter. *)
Definition env_of (lookup : PyVal -> string -> Res PyVal)
    (net : PyVal -> Res Response) : Env :=
  mkEnv name_of lookup net (fun _ => None) (fun _ _ _ => None)
    (fun _ _ => None) (fun _ => None) (fun _ _ => None).

Definition no_lookup (media_url : PyVal) (domain_type : string) : Res PyVal :=
  Ok PNone.

Definition failing_lookup (media_url : PyVal) (domain_type : string) : Res PyVal :=
  Raise (Exn "ConnectionError" "lookup failed").

(** A network that answers one byte at [good] and an error elsewhere. *)
Definition net_one (good : string) (u : PyVal) : Res Response :=
  match u with
  | PStr s =>
      if String.eqb s good
      then Ok (mkResponse None [[Byte.x2a]] None)
      else Raise (Exn "ConnectionError" "unreachable")
  | _ => Raise (Exn "MissingSchema" "invalid URL")
  end.

(** A network that answers one byte everywhere. *)
Definition net_all (u : PyVal) : Res Response :=
  Ok (mkResponse None [[Byte.x2a]] None).

(** A network on which every response has a failure status. *)
Definition net_404 (u : PyVal) : Res Response :=
  Ok (mkResponse (Some (Exn "HTTPError" "404 Client Error")) [] None).

(** A network on which the connection breaks after the first chunk. *)
Definition net_broken (u : PyVal) : Res Response :=
  Ok (mkResponse None [[Byte.x2a]] (Some (Exn "ChunkedEncodingError" "connection broken"))).

Definition cls : MediaDownloader := mkMediaDownloader "dl" 5.

Definition w0 : World := mkWorld ∅ 0 [].

Definition preview_of (u : string) : PyVal :=
  PDict [("images", PList [PDict [("source", PDict [("url", PStr u)])]])].

Definition post (domain url title : string) (rest : Dict) : Dict :=
  ("domain", PStr domain) :: ("url", PStr url) :: ("title", PStr title) :: rest.

End Sample.

(** ** Properties of computations *)

(** The computation returns, whatever the world: it never raises. *)
Definition total {A} (m : M A) : Prop :=
  forall w, exists a w', m w = (Ok a, w').

(** The computation takes every world to one related to it by [P]. *)
Definition preserves {A} (P : World -> World -> Prop) (m : M A) : Prop :=
  forall w, P w (snd (m w)).

(** The counter and the calls of [increment_counter] are as before. *)
Definition quiet (w w' : World) : Prop :=
  count w' = count w /\ incrs_of (trace w') = incrs_of (trace w).

(** The files that hold bytes are still there, with the same bytes. *)
Definition keeps (w w' : World) : Prop :=
  forall path c, fs w !! path = Some c -> c <> [] -> fs w' !! path = Some c.

(** No request has been made. *)
Definition no_get (w w' : World) : Prop :=
  gets_of (trace w') = gets_of (trace w).

(** The files are as before. *)
Definition same_files (w w' : World) : Prop :=
  fs w' = fs w.

(** Every file but [path] is as before. *)
Definition only_at (path : string) (w w' : World) : Prop :=
  forall q, q <> path -> fs w' !! q = fs w !! q.

(** Every file is still there, with the same bytes. *)
Definition keeps_all (w w' : World) : Prop :=
  forall path c, fs w !! path = Some c -> fs w' !! path = Some c.

(** The disk takes every write to [path]. *)
Definition disk_ok (env : Env) (path : string) : Prop :=
  open_fault env path = None /\
  forall sofar chunk, write_fault env path sofar chunk = None.

(** [download_post] called on the posts of a list, one after the
    other, as a single worker does. *)
Fixpoint download_posts (env : Env) (cls : MediaDownloader) (posts : list Dict)
    : M unit :=
  match posts with
  | [] => ret tt
  | post_details :: rest =>
      do* download_post env cls post_details in
      download_posts env cls rest
  end.

(** At most [n] requests have been made from [w] to [w']. *)
Definition requests_at_most (n : nat) (w w' : World) : Prop :=
  exists us,
    gets_of (trace w') = (gets_of (trace w) ++ us)%list /\ (length us <= n)%nat.

(** * Proofs *)

(** ** The monad *)

Lemma bind_ok {A B} (m : M A) (k : A -> M B) w a w' :
  m w = (Ok a, w') -> bind m k w = k a w'.
Proof. intros H. unfold bind. now rewrite H. Qed.

Lemma bind_raise {A B} (m : M A) (k : A -> M B) w e w' :
  m w = (Raise e, w') -> bind m k w = (Raise e, w').
Proof. intros H. unfold bind. now rewrite H. Qed.

Lemma try_ok {A} (m : M A) h w a w' :
  m w = (Ok a, w') -> try_except m h w = (Ok a, w').
Proof. intros H. unfold try_except. now rewrite H. Qed.

Lemma try_raise {A} (m : M A) h w e w' :
  m w = (Raise e, w') -> try_except m h w = h e w'.
Proof. intros H. unfold try_except. now rewrite H. Qed.

Lemma bind_lift_ok {A B} (a : A) (k : A -> M B) : bind (lift (Ok a)) k = k a.
Proof. reflexivity. Qed.

Lemma bind_lift_raise {A B} e (k : A -> M B) : bind (lift (Raise e)) k = raise e.
Proof. reflexivity. Qed.

Lemma bind_ret {A B} (a : A) (k : A -> M B) : bind (ret a) k = k a.
Proof. reflexivity. Qed.

Lemma total_ret {A} (a : A) : total (ret a).
Proof. intros w. now exists a, w. Qed.

Lemma total_bind {A B} (m : M A) (k : A -> M B) :
  total m -> (forall a, total (k a)) -> total (bind m k).
Proof.
  intros Hm Hk w. destruct (Hm w) as (a & w' & E).
  rewrite (bind_ok _ _ _ _ _ E). apply Hk.
Qed.

(** A [try] whose handler returns never raises, whatever its body. *)
Lemma total_try {A} (m : M A) (h : exn -> M A) :
  (forall e, total (h e)) -> total (try_except m h).
Proof.
  intros Hh w. unfold try_except.
  destruct (m w) as [[a|e] w']; [now exists a, w' | apply Hh].
Qed.

Lemma total_log pre e : total (logging_error pre e).
Proof. intros w. now eexists _, _. Qed.

(** The handlers of [downloaders.py]: log the exception, return [x]. *)
Lemma total_log_ret {A} pre e (x : A) :
  total (do* logging_error pre e in ret x).
Proof. apply total_bind; [apply total_log | intros _; apply total_ret]. Qed.

Create HintDb totality.
#[local] Hint Resolve total_ret total_log total_log_ret total_try : totality.

Section Totality.

Variable env : Env.

Lemma core_download_total url path : total (_core_download env url path).
Proof. apply total_try. intros e. apply total_log. Qed.

Lemma naive_preview_total self : total (_attempt_naive_preview_download env self).
Proof. unfold _attempt_naive_preview_download. auto with totality. Qed.

Lemma do_nothing_total self : total (do_nothing self).
Proof. apply total_ret. Qed.

Lemma gfycat_total self : total (gfycat env self).
Proof. unfold gfycat. auto with totality. Qed.

Lemma imgur_total self : total (imgur env self).
Proof. unfold imgur. auto with totality. Qed.

Lemma ireddit_total self : total (ireddit env self).
Proof. unfold ireddit. auto with totality. Qed.

Lemma redgifs_total self : total (redgifs env self).
Proof. unfold redgifs. auto with totality. Qed.

(** Whatever [domain_mappings] selects returns. *)
Lemma handler_total domain handler self :
  domain_mappings env domain = Ok handler -> total (handler self).
Proof.
  unfold domain_mappings. intros H.
  destruct domain; try discriminate;
    try (injection H as <-; apply do_nothing_total).
  repeat match type of H with
         | (if ?c then _ else _) = _ => destruct c
         end; injection H as <-;
    auto using gfycat_total, imgur_total, ireddit_total, redgifs_total,
      do_nothing_total.
Qed.

Lemma download_total self : total (download env self).
Proof. unfold download. auto with totality. Qed.

Lemma download_post_total cls post_details :
  total (download_post env cls post_details).
Proof. unfold download_post. auto with totality. Qed.

End Totality.

(** ** What a computation leaves as it is *)

#[local] Instance quiet_preorder : PreOrder quiet.
Proof.
  split.
  - intros w. now split.
  - intros a b c [H1 H2] [H3 H4]. split; congruence.
Qed.

#[local] Instance keeps_preorder : PreOrder keeps.
Proof.
  split.
  - intros w path c H _. exact H.
  - intros a b c H1 H2 path x Hx Hne. eauto.
Qed.

#[local] Instance no_get_preorder : PreOrder no_get.
Proof.
  split.
  - intros w. reflexivity.
  - intros a b c H1 H2. unfold no_get in *. congruence.
Qed.

#[local] Instance same_files_preorder : PreOrder same_files.
Proof.
  split.
  - intros w. reflexivity.
  - intros a b c H1 H2. unfold same_files in *. congruence.
Qed.

#[local] Instance only_at_preorder path : PreOrder (only_at path).
Proof.
  split.
  - intros w q _. reflexivity.
  - intros a b c H1 H2 q Hq. rewrite (H2 q Hq). now apply H1.
Qed.

Section Preservation.

Context {P : World -> World -> Prop} `{!PreOrder P}.

Lemma preserves_ret {A} (a : A) : preserves P (ret a).
Proof. intros w. simpl. reflexivity. Qed.

Lemma preserves_raise {A} e : preserves P (@raise A e).
Proof. intros w. simpl. reflexivity. Qed.

Lemma preserves_lift {A} (r : Res A) : preserves P (lift r).
Proof. intros w. simpl. reflexivity. Qed.

Lemma preserves_may_raise f : preserves P (may_raise f).
Proof. destruct f; [apply preserves_raise | apply preserves_ret]. Qed.

Lemma preserves_bind {A B} (m : M A) (k : A -> M B) :
  preserves P m -> (forall a, preserves P (k a)) -> preserves P (bind m k).
Proof.
  intros Hm Hk w. specialize (Hm w). unfold bind.
  destruct (m w) as [[a|e] w1]; simpl in *; [| exact Hm].
  etransitivity; [exact Hm | apply Hk].
Qed.

Lemma preserves_try {A} (m : M A) (h : exn -> M A) :
  preserves P m -> (forall e, preserves P (h e)) -> preserves P (try_except m h).
Proof.
  intros Hm Hh w. specialize (Hm w). unfold try_except.
  destruct (m w) as [[a|e] w1]; simpl in *; [exact Hm |].
  etransitivity; [exact Hm | apply Hh].
Qed.

End Preservation.

Create HintDb pres.

Ltac pres_step :=
  match goal with
  | |- preserves _ (bind _ _) => apply preserves_bind
  | |- preserves _ (try_except _ _) => apply preserves_try
  | |- preserves _ (ret _) => apply preserves_ret
  | |- preserves _ (raise _) => apply preserves_raise
  | |- preserves _ (lift _) => apply preserves_lift
  | |- preserves _ (may_raise _) => apply preserves_may_raise
  | |- preserves _ (if ?c then _ else _) => destruct c
  | |- preserves _ (match ?x with _ => _ end) => destruct x
  | |- forall _, _ => intro
  end.

Ltac pres := repeat pres_step; eauto with pres.

Lemma incrs_of_app evs1 evs2 :
  incrs_of (evs1 ++ evs2) = (incrs_of evs1 ++ incrs_of evs2)%list.
Proof.
  induction evs1 as [|[] evs1 IH]; simpl; try rewrite IH; reflexivity.
Qed.

Lemma gets_of_app evs1 evs2 :
  gets_of (evs1 ++ evs2) = (gets_of evs1 ++ gets_of evs2)%list.
Proof.
  induction evs1 as [|[] evs1 IH]; simpl; try rewrite IH; reflexivity.
Qed.

(** Logging changes neither the counter, nor the files, nor the
    requests. *)
Lemma log_quiet pre e : preserves quiet (logging_error pre e).
Proof.
  intros w. split; simpl; [reflexivity |].
  rewrite incrs_of_app. simpl. apply app_nil_r.
Qed.

Lemma log_keeps pre e : preserves keeps (logging_error pre e).
Proof. intros w path c H _. exact H. Qed.

Lemma log_no_get pre e : preserves no_get (logging_error pre e).
Proof.
  intros w. unfold no_get. simpl. rewrite gets_of_app. simpl. apply app_nil_r.
Qed.

Lemma log_same_files pre e : preserves same_files (logging_error pre e).
Proof. intros w. reflexivity. Qed.

Lemma log_only_at path pre e : preserves (only_at path) (logging_error pre e).
Proof. intros w q _. reflexivity. Qed.

#[local] Hint Resolve log_quiet log_keeps log_no_get log_same_files log_only_at : pres.

Section Frames.

Variable env : Env.

(** *** The counter and the calls of [increment_counter] *)

Lemma lookup_url_quiet u t : preserves quiet (lookup_url env u t).
Proof.
  intros w. split; simpl; [reflexivity |].
  rewrite incrs_of_app. simpl. apply app_nil_r.
Qed.

Lemma http_get_quiet u : preserves quiet (http_get env u).
Proof.
  intros w. split; simpl; [reflexivity |].
  rewrite incrs_of_app. simpl. apply app_nil_r.
Qed.

Lemma path_exists_quiet path : preserves quiet (path_exists path).
Proof. intros w. simpl. reflexivity. Qed.

Lemma open_wb_quiet path : preserves quiet (open_wb env path).
Proof. intros w. unfold open_wb. destruct (open_fault env path); now split. Qed.

Lemma file_write_quiet path chunk : preserves quiet (file_write env path chunk).
Proof.
  intros w. unfold file_write. cbv zeta.
  destruct (write_fault env path _ chunk); now split.
Qed.

Lemma check_quiet path : preserves quiet (check_if_empty_and_delete_file env path).
Proof.
  intros w. unfold check_if_empty_and_delete_file.
  destruct (check_fault env path _); [now split |].
  destruct (fs w !! path) as [[|]|]; now split.
Qed.

#[local] Hint Resolve lookup_url_quiet http_get_quiet path_exists_quiet
  open_wb_quiet file_write_quiet check_quiet : pres.

Lemma write_chunks_quiet path chunks broken :
  preserves quiet (write_chunks env path chunks broken).
Proof. induction chunks as [|chunk rest IH]; simpl; pres. Qed.

#[local] Hint Resolve write_chunks_quiet : pres.

Lemma core_download_quiet url path : preserves quiet (_core_download env url path).
Proof. unfold _core_download. pres. Qed.

#[local] Hint Resolve core_download_quiet : pres.

Lemma download_to_local_file_quiet self url :
  preserves quiet (_download_to_local_file env self url).
Proof. unfold _download_to_local_file. pres. Qed.

#[local] Hint Resolve download_to_local_file_quiet : pres.

Lemma naive_preview_quiet self :
  preserves quiet (_attempt_naive_preview_download env self).
Proof. unfold _attempt_naive_preview_download. pres. Qed.

Lemma gfycat_quiet self : preserves quiet (gfycat env self).
Proof. unfold gfycat. pres. Qed.

Lemma imgur_quiet self : preserves quiet (imgur env self).
Proof. unfold imgur. pres. Qed.

Lemma ireddit_quiet self : preserves quiet (ireddit env self).
Proof. unfold ireddit. pres. Qed.

Lemma redgifs_quiet self : preserves quiet (redgifs env self).
Proof. unfold redgifs. pres. Qed.

Lemma do_nothing_quiet self : preserves quiet (do_nothing self).
Proof. unfold do_nothing. pres. Qed.

#[local] Hint Resolve naive_preview_quiet gfycat_quiet imgur_quiet ireddit_quiet
  redgifs_quiet do_nothing_quiet : pres.

Lemma handler_quiet domain handler self :
  domain_mappings env domain = Ok handler -> preserves quiet (handler self).
Proof.
  unfold domain_mappings. intros H.
  destruct domain; try discriminate; try (injection H as <-; pres).
  repeat match type of H with
         | (if ?c then _ else _) = _ => destruct c
         end; injection H as <-; pres.
Qed.

Lemma download_body_quiet self : preserves quiet (download_body env self).
Proof.
  unfold download_body.
  destruct (domain_mappings env (_domain self)) as [handler|e] eqn:E.
  - rewrite bind_lift_ok. pose proof (handler_quiet _ _ self E). pres.
  - rewrite bind_lift_raise. pres.
Qed.

Lemma download_quiet self : preserves quiet (download env self).
Proof. unfold download. pose proof (download_body_quiet self). pres. Qed.

End Frames.

Section Files.

Variable env : Env.

(** *** The files *)

Lemma lookup_url_same_files u t : preserves same_files (lookup_url env u t).
Proof. intros w. reflexivity. Qed.

Lemma same_files_keeps {A} (m : M A) : preserves same_files m -> preserves keeps m.
Proof. intros H w path c Hc _. rewrite (H w). exact Hc. Qed.

Lemma same_files_only_at {A} (m : M A) path :
  preserves same_files m -> preserves (only_at path) m.
Proof. intros H w q _. now rewrite (H w). Qed.

Lemma http_get_same_files u : preserves same_files (http_get env u).
Proof. intros w. reflexivity. Qed.

Lemma path_exists_same_files path : preserves same_files (path_exists path).
Proof. intros w. reflexivity. Qed.

Lemma open_wb_only_at path : preserves (only_at path) (open_wb env path).
Proof.
  intros w q Hq. unfold open_wb.
  destruct (open_fault env path); simpl; [reflexivity |].
  now apply lookup_insert_ne.
Qed.

Lemma file_write_only_at path chunk :
  preserves (only_at path) (file_write env path chunk).
Proof.
  intros w q Hq. unfold file_write. cbv zeta.
  destruct (write_fault env path _ chunk); simpl; [reflexivity |].
  now apply lookup_insert_ne.
Qed.

Lemma http_get_only_at path u : preserves (only_at path) (http_get env u).
Proof. apply same_files_only_at, http_get_same_files. Qed.

Lemma path_exists_only_at path q : preserves (only_at path) (path_exists q).
Proof. apply same_files_only_at, path_exists_same_files. Qed.

#[local] Hint Resolve open_wb_only_at file_write_only_at http_get_only_at
  path_exists_only_at : pres.

Lemma write_chunks_only_at path chunks broken :
  preserves (only_at path) (write_chunks env path chunks broken).
Proof. induction chunks as [|chunk rest IH]; simpl; pres. Qed.

#[local] Hint Resolve write_chunks_only_at : pres.

(** [_core_download] touches no file but its destination. *)
Lemma core_download_only_at url path :
  preserves (only_at path) (_core_download env url path).
Proof. unfold _core_download. pres. Qed.

(** The skip of [_core_download]: when the file exists the call returns
    at once and the world is as before. *)
Lemma core_download_exists url path w :
  is_Some (fs w !! path) -> _core_download env url path w = (Ok tt, w).
Proof.
  intros H. unfold _core_download, try_except, bind, path_exists.
  now rewrite bool_decide_eq_true_2.
Qed.

(** A file that exists is never written again. *)
Lemma core_download_keeps url path : preserves keeps (_core_download env url path).
Proof.
  intros w q c Hq _.
  destruct (fs w !! path) as [c'|] eqn:E.
  - rewrite core_download_exists by (rewrite E; eauto). exact Hq.
  - rewrite (core_download_only_at url path w q); [exact Hq |].
    intros ->. congruence.
Qed.

(** The validator deletes nothing but a file of zero bytes. *)
Lemma check_keeps path : preserves keeps (check_if_empty_and_delete_file env path).
Proof.
  intros w q c Hq Hne. unfold check_if_empty_and_delete_file.
  destruct (check_fault env path _); [exact Hq |].
  destruct (fs w !! path) as [[|b bs]|] eqn:E; simpl; try exact Hq.
  rewrite lookup_delete_ne; [exact Hq |]. intros ->. congruence.
Qed.

Lemma lookup_url_keeps u t : preserves keeps (lookup_url env u t).
Proof. apply same_files_keeps, lookup_url_same_files. Qed.

#[local] Hint Resolve core_download_keeps check_keeps lookup_url_keeps : pres.

Lemma download_to_local_file_keeps self url :
  preserves keeps (_download_to_local_file env self url).
Proof. unfold _download_to_local_file. pres. Qed.

#[local] Hint Resolve download_to_local_file_keeps : pres.

Lemma naive_preview_keeps self :
  preserves keeps (_attempt_naive_preview_download env self).
Proof. unfold _attempt_naive_preview_download. pres. Qed.

Lemma gfycat_keeps self : preserves keeps (gfycat env self).
Proof. unfold gfycat. pres. Qed.

Lemma imgur_keeps self : preserves keeps (imgur env self).
Proof. unfold imgur. pres. Qed.

Lemma ireddit_keeps self : preserves keeps (ireddit env self).
Proof. unfold ireddit. pres. Qed.

Lemma redgifs_keeps self : preserves keeps (redgifs env self).
Proof. unfold redgifs. pres. Qed.

Lemma do_nothing_keeps self : preserves keeps (do_nothing self).
Proof. unfold do_nothing. pres. Qed.

#[local] Hint Resolve naive_preview_keeps gfycat_keeps imgur_keeps ireddit_keeps
  redgifs_keeps do_nothing_keeps : pres.

Lemma handler_keeps domain handler self :
  domain_mappings env domain = Ok handler -> preserves keeps (handler self).
Proof.
  unfold domain_mappings. intros H.
  destruct domain; try discriminate; try (injection H as <-; pres).
  repeat match type of H with
         | (if ?c then _ else _) = _ => destruct c
         end; injection H as <-; pres.
Qed.

(** *** The requests *)

Lemma open_wb_no_get path : preserves no_get (open_wb env path).
Proof. intros w. unfold open_wb. now destruct (open_fault env path). Qed.

Lemma file_write_no_get path chunk : preserves no_get (file_write env path chunk).
Proof.
  intros w. unfold file_write. cbv zeta.
  now destruct (write_fault env path _ chunk).
Qed.

#[local] Hint Resolve open_wb_no_get file_write_no_get : pres.

Lemma write_chunks_no_get path chunks broken :
  preserves no_get (write_chunks env path chunks broken).
Proof. induction chunks as [|chunk rest IH]; simpl; pres. Qed.

#[local] Hint Resolve write_chunks_no_get : pres.

(** When the file is not there, [_core_download] makes one request,
    for its URL. *)
Lemma core_download_absent url path w :
  fs w !! path = None ->
  gets_of (trace (snd (_core_download env url path w)))
  = (gets_of (trace w) ++ [url])%list.
Proof.
  intros H. unfold _core_download.
  set (rest := fun r : Response =>
    do* may_raise (status_error r) in
    do* open_wb env path in
    write_chunks env path (iter_content r) (stream_error r)).
  assert (Hrest : forall r, preserves no_get (rest r)) by (intros r; unfold rest; pres).
  assert (Hget : gets_of (trace (emit (EvGet url) w)) = (gets_of (trace w) ++ [url])%list).
  { simpl. now rewrite gets_of_app. }
  unfold try_except, bind at 1, path_exists.
  rewrite bool_decide_eq_false_2 by (rewrite H; intros [? ?]; discriminate).
  unfold bind at 1, http_get.
  destruct (requests_get env url) as [r|e].
  - fold (rest r). specialize (Hrest r (emit (EvGet url) w)).
    unfold no_get in Hrest. rewrite Hget in Hrest.
    destruct (rest r (emit (EvGet url) w)) as [[[]|e] w1].
    + exact Hrest.
    + cbn [snd logging_error emit trace]. rewrite gets_of_app.
      cbn [gets_of]. rewrite app_nil_r. exact Hrest.
  - simpl. rewrite gets_of_app, gets_of_app. simpl. now rewrite app_nil_r.
Qed.

Lemma check_no_get path : preserves no_get (check_if_empty_and_delete_file env path).
Proof.
  intros w. unfold check_if_empty_and_delete_file.
  destruct (check_fault env path _); [reflexivity |].
  now destruct (fs w !! path) as [[|]|].
Qed.

End Files.

(** ** The bytes a fetch writes *)

Section Transfer.

Variable env : Env.

(** The writes of the loop, when the disk takes them all: the file
    grows by the chunks, in order. *)
Lemma write_chunks_content path chunks broken w c0 :
  (forall sofar chunk, write_fault env path sofar chunk = None) ->
  fs w !! path = Some c0 ->
  write_chunks env path chunks broken w
  = (match broken with Some e => Raise e | None => Ok tt end,
     set_fs (<[path := (c0 ++ concat chunks)%list]> (fs w)) w).
Proof.
  intros Hw. revert w c0.
  induction chunks as [|chunk rest IH]; intros w c0 Hf.
  - cbn [write_chunks concat]. rewrite app_nil_r, (insert_id _ _ _ Hf).
    destruct w as [f c t]. now destruct broken.
  - cbn [write_chunks concat]. destruct chunk as [|b bs].
    + rewrite bind_ret. now apply IH.
    + unfold bind at 1, file_write. cbv zeta. rewrite Hw, Hf. cbn [default].
      rewrite (IH _ (c0 ++ b :: bs)%list) by apply lookup_insert_eq.
      cbn [fs set_fs]. rewrite insert_insert_eq, <- app_assoc.
      reflexivity.
Qed.

(** The run of [_core_download] up to the loop, when the file is not
    there and the request is answered with a success status. *)
Lemma core_download_streams url path r w :
  fs w !! path = None ->
  requests_get env url = Ok r ->
  status_error r = None ->
  disk_ok env path ->
  _core_download env url path w
  = try_except
      (write_chunks env path (iter_content r) (stream_error r))
      (fun e => logging_error "Error in core download: " e)
      (set_fs (<[path := []]> (fs w)) (emit (EvGet url) w)).
Proof.
  intros Hf Hr Hs [Ho _].
  unfold _core_download, try_except, bind at 1, path_exists.
  rewrite bool_decide_eq_false_2 by (rewrite Hf; intros [? ?]; discriminate).
  unfold bind at 1, http_get. rewrite Hr.
  unfold bind at 1. rewrite Hs. cbn [may_raise ret].
  unfold bind at 1, open_wb. now rewrite Ho.
Qed.

(** A stream that ends well, from request to file. *)
Lemma core_download_complete url path r w :
  fs w !! path = None ->
  requests_get env url = Ok r ->
  status_error r = None ->
  stream_error r = None ->
  disk_ok env path ->
  _core_download env url path w
  = (Ok tt,
     set_fs (<[path := concat (iter_content r)]> (fs w)) (emit (EvGet url) w)).
Proof.
  intros Hf Hr Hs He Hd.
  rewrite (core_download_streams url path r w Hf Hr Hs Hd).
  unfold try_except.
  rewrite (write_chunks_content path _ _ _ [] (proj2 Hd))
    by apply lookup_insert_eq.
  rewrite He. cbn [fs set_fs app]. now rewrite insert_insert_eq.
Qed.

End Transfer.

(** ** [download_post] around [download] *)

Lemma dict_get_absent k d : dict_has k d = false -> dict_get k d = PNone.
Proof.
  induction d as [|[k' v] d IH]; simpl; [reflexivity |].
  destruct (String.eqb k k'); [discriminate | exact IH].
Qed.

Section Orchestrator.

Variable env : Env.
Variable cls : MediaDownloader.

(** When the quota check fails to read the counter. *)
Lemma download_post_counter_fault post_details w e :
  get_counter_fault env (count w) = Some e ->
  download_post env cls post_details w
  = (Ok PNone, emit (EvLog ("Error downloading post: " ++ exn_msg e)) w).
Proof.
  intros H. unfold download_post, try_except, download_post_body, bind at 1,
    get_counter_value. now rewrite H.
Qed.

(** When the quota is reached. *)
Lemma download_post_skip post_details w :
  get_counter_fault env (count w) = None ->
  max_posts_download cls <= count w ->
  download_post env cls post_details w = (Ok PNone, w).
Proof.
  intros H Hge. unfold download_post, try_except, download_post_body, bind at 1,
    get_counter_value. rewrite H.
  now rewrite (proj2 (Z.geb_le _ _) Hge).
Qed.

(** When a field is missing. *)
Lemma download_post_malformed post_details w :
  under_quota env cls w ->
  is_none (dict_get "domain" post_details) || is_none (dict_get "url" post_details) = true ->
  download_post env cls post_details w = (Ok (PBool false), w).
Proof.
  intros [H Hlt] Hm. unfold download_post, try_except, download_post_body, bind at 1,
    get_counter_value. rewrite H.
  assert (E : (count w >=? max_posts_download cls) = false)
    by (rewrite Z.geb_leb; apply Z.leb_gt; lia).
  rewrite E. cbv zeta. now rewrite Hm.
Qed.

(** When the post goes to [download]: the flag [download] returns is
    passed to [increment_counter], once. *)
Lemma download_post_reports post_details w b w1 :
  under_quota env cls w ->
  well_formed post_details ->
  download env (helper_of cls post_details) w = (Ok b, w1) ->
  download_post env cls post_details w =
    (Ok PNone,
     match increment_fault env b (count w1) with
     | Some e =>
         emit (EvLog ("Error downloading post: " ++ exn_msg e))
           (emit (EvIncrement b) w1)
     | None =>
         set_count (if b then count w1 + 1 else count w1) (emit (EvIncrement b) w1)
     end).
Proof.
  intros [H Hlt] [Hd Hu] E.
  unfold download_post, try_except, download_post_body, bind at 1,
    get_counter_value. rewrite H.
  assert (E' : (count w >=? max_posts_download cls) = false)
    by (rewrite Z.geb_leb; apply Z.leb_gt; lia).
  rewrite E'. cbv zeta. rewrite Hd, Hu. cbn [orb].
  unfold bind at 1. rewrite E. unfold bind, increment_counter. cbv zeta.
  now destruct (increment_fault env b (count w1)).
Qed.

Lemma download_post_reports_trace post_details w b w1 :
  under_quota env cls w ->
  well_formed post_details ->
  download env (helper_of cls post_details) w = (Ok b, w1) ->
  let r := download_post env cls post_details w in
  fst r = Ok PNone /\
  fs (snd r) = fs w1 /\
  gets_of (trace (snd r)) = gets_of (trace w1) /\
  incrs_of (trace (snd r)) = (incrs_of (trace w) ++ [b])%list.
Proof.
  intros Hq Hwf E. cbv zeta.
  rewrite (download_post_reports _ _ _ _ Hq Hwf E).
  pose proof (download_quiet env (helper_of cls post_details) w) as [_ Hi].
  rewrite E in Hi. simpl in Hi.
  destruct (increment_fault env b (count w1)); simpl;
    repeat rewrite ?gets_of_app, ?incrs_of_app; simpl;
    rewrite ?app_nil_r, Hi; auto.
Qed.

End Orchestrator.

(** * The claims *)

(** ** Quota and malformed posts *)

(** C1.  When the counter already holds at least [max_posts_download]
    successful downloads at the start of [download_post], the call
    returns [None] at once and leaves the world as it found it: no
    file is created, no lookup and no request is made, nothing is
    logged and [increment_counter] is not called. *)
Theorem C1_quota_reached_returns_at_once env cls post_details w :
  get_counter_fault env (count w) = None ->
  max_posts_download cls <= count w ->
  download_post env cls post_details w = (Ok PNone, w).
Proof. apply download_post_skip. Qed.

Lemma C1_quota_reached_witness :
  download_post (Sample.env_of Sample.no_lookup Sample.net_all) Sample.cls
    (Sample.post "i.redd.it" "http://i.redd.it/x.jpg" "cat" [])
    (mkWorld ∅ 5 [])
  = (Ok PNone, mkWorld ∅ 5 []).
Proof.
  apply C1_quota_reached_returns_at_once; [reflexivity | simpl; lia].
Defined.

(** C4.  For a post whose [domain] or [url] is missing (the key is
    absent, or its value is [None]: both read as [None], see
    [dict_get_absent]), [download_post] writes no file, makes no
    request, leaves the counter alone and never calls
    [increment_counter]; once the quota check has let the post through
    it returns [False], the world being as before. *)
Theorem C4_missing_field_is_dropped env cls post_details w :
  dict_get "domain" post_details = PNone \/ dict_get "url" post_details = PNone ->
  let r := download_post env cls post_details w in
  fs (snd r) = fs w /\
  count (snd r) = count w /\
  incrs_of (trace (snd r)) = incrs_of (trace w) /\
  gets_of (trace (snd r)) = gets_of (trace w) /\
  (under_quota env cls w -> r = (Ok (PBool false), w)).
Proof.
  intros Hm. cbv zeta.
  assert (Hm' : is_none (dict_get "domain" post_details)
                || is_none (dict_get "url" post_details) = true).
  { destruct Hm as [-> | ->]; [reflexivity | apply orb_true_r]. }
  destruct (get_counter_fault env (count w)) as [e|] eqn:Hf.
  - rewrite (download_post_counter_fault _ _ _ _ _ Hf). simpl.
    rewrite incrs_of_app, gets_of_app. simpl. rewrite !app_nil_r.
    repeat split. intros [Hq _]. congruence.
  - destruct (Z_lt_le_dec (count w) (max_posts_download cls)) as [Hlt | Hge].
    + rewrite (download_post_malformed env cls post_details w (conj Hf Hlt) Hm').
      repeat split.
    + rewrite (download_post_skip _ _ _ _ Hf Hge). simpl.
      repeat split. intros [_ Hlt]. lia.
Qed.

Lemma C4_missing_field_witness :
  let p := [("url", PStr "http://i.redd.it/x.jpg"); ("title", PStr "cat")] in
  let r := download_post (Sample.env_of Sample.no_lookup Sample.net_all)
             Sample.cls p Sample.w0 in
  dict_has "domain" p = false /\ r = (Ok (PBool false), Sample.w0).
Proof.
  split; [reflexivity |].
  apply (C4_missing_field_is_dropped
           (Sample.env_of Sample.no_lookup Sample.net_all) Sample.cls
           [("url", PStr "http://i.redd.it/x.jpg"); ("title", PStr "cat")]
           Sample.w0).
  - left. reflexivity.
  - split; [reflexivity | simpl; lia].
Defined.

(** C10.  [download_post] returns [None] or [False] and nothing else;
    it returns [False] exactly when the quota check has let the post
    through and the [domain] or the [url] of the post is missing.  A
    post with both fields gets [None] whether its download succeeded,
    failed or raised. *)
Theorem C10_return_value_only_tells_malformed env cls post_details w :
  let r := fst (download_post env cls post_details w) in
  (r = Ok PNone \/ r = Ok (PBool false)) /\
  (r = Ok (PBool false) <->
     under_quota env cls w /\
     is_none (dict_get "domain" post_details)
     || is_none (dict_get "url" post_details) = true) /\
  (well_formed post_details -> r = Ok PNone).
Proof.
  cbv zeta.
  assert (Hcases :
    fst (download_post env cls post_details w) = Ok (PBool false) /\
      under_quota env cls w /\
      is_none (dict_get "domain" post_details)
      || is_none (dict_get "url" post_details) = true
    \/
    fst (download_post env cls post_details w) = Ok PNone /\
      ~ (under_quota env cls w /\
         is_none (dict_get "domain" post_details)
         || is_none (dict_get "url" post_details) = true)).
  { destruct (get_counter_fault env (count w)) as [e|] eqn:Hf.
    { right. rewrite (download_post_counter_fault _ _ _ _ _ Hf).
      split; [reflexivity |]. intros [[Hq _] _]. congruence. }
    destruct (Z_lt_le_dec (count w) (max_posts_download cls)) as [Hlt | Hge].
    2:{ right. rewrite (download_post_skip _ _ _ _ Hf Hge).
        split; [reflexivity |]. intros [[_ Hlt] _]. lia. }
    destruct (is_none (dict_get "domain" post_details)
              || is_none (dict_get "url" post_details)) eqn:Hm.
    { left. rewrite (download_post_malformed env cls post_details w (conj Hf Hlt) Hm).
      repeat split; assumption. }
    right. apply orb_false_elim in Hm.
    destruct (download_total env (helper_of cls post_details) w) as (b & w1 & E).
    rewrite (download_post_reports env cls post_details w b w1 (conj Hf Hlt) Hm E).
    split; [reflexivity |]. intros [_ Hx]. discriminate. }
  destruct Hcases as [(Hr & Hq & Hm) | (Hr & Hn)]; rewrite Hr.
  - split; [now right |]. split; [tauto |].
    intros [Hd Hu]. rewrite Hd, Hu in Hm. discriminate.
  - split; [now left |]. split; [| reflexivity].
    split; [discriminate | intros H; now destruct Hn].
Qed.

Lemma C10_return_value_witness :
  fst (download_post (Sample.env_of Sample.no_lookup Sample.net_404) Sample.cls
         (Sample.post "i.redd.it" "http://i.redd.it/x.jpg" "cat" []) Sample.w0)
  = Ok PNone.
Proof.
  apply (C10_return_value_only_tells_malformed
           (Sample.env_of Sample.no_lookup Sample.net_404) Sample.cls
           (Sample.post "i.redd.it" "http://i.redd.it/x.jpg" "cat" []) Sample.w0).
  split; reflexivity.
Defined.

(** ** The fetch and its caller *)

Section Fetch.

Variable env : Env.

(** [_core_download] returns whatever happens, so the [except] of
    [_download_to_local_file] is never entered: the method returns the
    file name as soon as the name can be built. *)
Lemma download_to_local_file_ok self url name w :
  construct_local_filename env (_title self) (ByUrl url) (_local_download_dir self)
  = Ok name ->
  _download_to_local_file env self url w
  = (Ok (Some name), snd (_core_download env url name w)).
Proof.
  intros H. unfold _download_to_local_file. rewrite H, bind_lift_ok.
  destruct (core_download_total env url name w) as ([] & w' & E).
  unfold try_except, bind. now rewrite E.
Qed.

Lemma download_to_local_file_raise self url e w :
  construct_local_filename env (_title self) (ByUrl url) (_local_download_dir self)
  = Raise e ->
  _download_to_local_file env self url w = (Raise e, w).
Proof. intros H. unfold _download_to_local_file. now rewrite H. Qed.

(** What [_core_download] does when the request itself raises. *)
Lemma core_download_request_raises url path e w :
  fs w !! path = None ->
  requests_get env url = Raise e ->
  _core_download env url path w
  = (Ok tt, emit (EvLog ("Error in core download: " ++ exn_msg e)) (emit (EvGet url) w)).
Proof.
  intros H Hr. unfold _core_download, try_except, bind, path_exists, http_get.
  rewrite bool_decide_eq_false_2 by (rewrite H; intros [? ?]; discriminate).
  now rewrite Hr.
Qed.

(** What [_core_download] does when [raise_for_status] raises. *)
Lemma core_download_status_raises url path r e w :
  fs w !! path = None ->
  requests_get env url = Ok r ->
  status_error r = Some e ->
  _core_download env url path w
  = (Ok tt, emit (EvLog ("Error in core download: " ++ exn_msg e)) (emit (EvGet url) w)).
Proof.
  intros H Hr Hs. unfold _core_download, try_except, bind, path_exists, http_get.
  rewrite bool_decide_eq_false_2 by (rewrite H; intros [? ?]; discriminate).
  now rewrite Hr, Hs.
Qed.

End Fetch.

(** C2.  The claim does not hold of the code.  [_core_download] logs
    the exception of a failed transfer and then returns as it does
    after a good one, so [_download_to_local_file] hands the file name
    to the host handler all the same: after a request that raised, and
    after a failure status, the result is the file name and not [None]. *)
Theorem C2_failed_transfer_still_yields_filename env self url name w :
  construct_local_filename env (_title self) (ByUrl url) (_local_download_dir self)
  = Ok name ->
  fs w !! name = None ->
  (exists w', _core_download env url name w = (Ok tt, w')) /\
  (forall e, requests_get env url = Raise e ->
     _download_to_local_file env self url w
     = (Ok (Some name),
        emit (EvLog ("Error in core download: " ++ exn_msg e)) (emit (EvGet url) w))) /\
  (forall r e, requests_get env url = Ok r -> status_error r = Some e ->
     _download_to_local_file env self url w
     = (Ok (Some name),
        emit (EvLog ("Error in core download: " ++ exn_msg e)) (emit (EvGet url) w))).
Proof.
  intros Hn Hf. split; [| split].
  - destruct (core_download_total env url name w) as ([] & w' & E). eauto.
  - intros e He. rewrite (download_to_local_file_ok env self url name w Hn).
    now rewrite (core_download_request_raises env url name e w Hf He).
  - intros r e Hr He. rewrite (download_to_local_file_ok env self url name w Hn).
    now rewrite (core_download_status_raises env url name r e w Hf Hr He).
Qed.

Lemma C2_failed_transfer_witness :
  ireddit (Sample.env_of Sample.no_lookup Sample.net_404)
    (mkMediaDownloadHelper (PStr "i.redd.it") (PStr "http://i.redd.it/x.jpg")
       (PStr "cat") [] "dl") Sample.w0
  = (Ok (Some "dl/cat_http://i.redd.it/x.jpg"),
     mkWorld ∅ 0
       [EvGet (PStr "http://i.redd.it/x.jpg");
        EvLog "Error in core download: 404 Client Error"]).
Proof.
  unfold ireddit. apply try_ok.
  exact (proj2 (proj2
           (C2_failed_transfer_still_yields_filename
              (Sample.env_of Sample.no_lookup Sample.net_404)
              (mkMediaDownloadHelper (PStr "i.redd.it")
                 (PStr "http://i.redd.it/x.jpg") (PStr "cat") [] "dl")
              (PStr "http://i.redd.it/x.jpg") "dl/cat_http://i.redd.it/x.jpg"
              Sample.w0 eq_refl eq_refl))
           (mkResponse (Some (Exn "HTTPError" "404 Client Error")) [] None)
           (Exn "HTTPError" "404 Client Error") eq_refl eq_refl).
Defined.

(** The same defect seen from [download_post]: a connection that breaks
    after the first chunk leaves a truncated file, which the validator
    finds non-empty, and the post is counted as a success. *)
Example broken_transfer_counts_as_success :
  download_post (Sample.env_of Sample.no_lookup Sample.net_broken) Sample.cls
    (Sample.post "i.redd.it" "http://i.redd.it/x.jpg" "cat" []) Sample.w0
  = (Ok PNone,
     mkWorld {[ "dl/cat_http://i.redd.it/x.jpg" := [Byte.x2a] ]} 1
       [EvGet (PStr "http://i.redd.it/x.jpg");
        EvLog "Error in core download: connection broken";
        EvIncrement true]).
Proof. vm_compute. reflexivity. Qed.

(** ** Unrecognized hosts *)

Lemma domain_mappings_unrecognized env domain :
  unrecognized domain -> domain_mappings env domain = Ok do_nothing.
Proof.
  intros [Hh Hn]. destruct domain as [| | | |s| |]; try reflexivity; try discriminate.
  specialize (Hn s eq_refl). unfold recognized_hosts in Hn. simpl in Hn.
  unfold domain_mappings.
  repeat match goal with
         | |- (if String.eqb ?a ?b then _ else _) = _ =>
             destruct (String.eqb_spec a b) as [-> | _]; [exfalso; tauto |]
         end.
  reflexivity.
Qed.

Lemma download_nothing_to_try env self w :
  unrecognized (_domain self) ->
  dict_has "preview" (_post_details self) = false ->
  download env self w = (Ok false, w).
Proof.
  intros Hu Hp. unfold download, try_except, download_body.
  rewrite (domain_mappings_unrecognized env _ Hu), bind_lift_ok.
  unfold do_nothing. rewrite bind_ret, bind_ret. cbn [negb].
  unfold _attempt_naive_preview_download. rewrite Hp. reflexivity.
Qed.

(** C6.  A domain that is none of the keys of [domain_mappings] is
    handled by [do_nothing], which returns [None] and raises nothing.
    If the post has no [preview] either, [download] returns [False]
    and the world is as before; [download_post] then creates no file,
    makes no request and counts nothing, the only flag it can pass to
    [increment_counter] is [False], and it does pass it when the post
    has its fields and the quota lets it through. *)
Theorem C6_unrecognized_host_without_preview_fails env cls post_details w :
  unrecognized (dict_get "domain" post_details) ->
  (domain_mappings env (dict_get "domain" post_details) = Ok do_nothing /\
   forall self w', do_nothing self w' = (Ok None, w')) /\
  (dict_has "preview" post_details = false ->
   download env (helper_of cls post_details) w = (Ok false, w) /\
   let r := download_post env cls post_details w in
   fs (snd r) = fs w /\
   count (snd r) = count w /\
   gets_of (trace (snd r)) = gets_of (trace w) /\
   (incrs_of (trace (snd r)) = incrs_of (trace w) \/
    incrs_of (trace (snd r)) = (incrs_of (trace w) ++ [false])%list) /\
   (under_quota env cls w -> well_formed post_details ->
    incrs_of (trace (snd r)) = (incrs_of (trace w) ++ [false])%list)).
Proof.
  intros Hu. split.
  { split; [now apply domain_mappings_unrecognized | reflexivity]. }
  intros Hp.
  assert (E : download env (helper_of cls post_details) w = (Ok false, w))
    by now apply download_nothing_to_try.
  split; [exact E |]. cbv zeta.
  destruct (get_counter_fault env (count w)) as [e|] eqn:Hf.
  { rewrite (download_post_counter_fault _ _ _ _ _ Hf). simpl.
    rewrite incrs_of_app, gets_of_app. simpl. rewrite !app_nil_r.
    repeat split; auto. intros [Hq _]. congruence. }
  destruct (Z_lt_le_dec (count w) (max_posts_download cls)) as [Hlt | Hge].
  2:{ rewrite (download_post_skip _ _ _ _ Hf Hge). simpl.
      repeat split; auto. intros [_ Hlt]. lia. }
  destruct (is_none (dict_get "domain" post_details)
            || is_none (dict_get "url" post_details)) eqn:Hm.
  { rewrite (download_post_malformed env cls post_details w (conj Hf Hlt) Hm).
    simpl. repeat split; auto.
    intros _ [Hd Hx]. rewrite Hd, Hx in Hm. discriminate. }
  apply orb_false_elim in Hm.
  rewrite (download_post_reports env cls post_details w false w (conj Hf Hlt) Hm E).
  destruct (increment_fault env false (count w)); simpl;
    rewrite ?incrs_of_app, ?gets_of_app; simpl; rewrite ?app_nil_r;
    repeat split; auto.
Qed.

Lemma C6_unrecognized_host_witness :
  download_post (Sample.env_of Sample.no_lookup Sample.net_all) Sample.cls
    (Sample.post "example.com" "http://example.com/x" "t" []) Sample.w0
  = (Ok PNone, mkWorld ∅ 0 [EvIncrement false]) /\
  incrs_of
    (trace (snd (download_post (Sample.env_of Sample.no_lookup Sample.net_all)
                   Sample.cls
                   (Sample.post "example.com" "http://example.com/x" "t" [])
                   Sample.w0)))
  = [false].
Proof.
  split; [reflexivity |].
  apply (C6_unrecognized_host_without_preview_fails
           (Sample.env_of Sample.no_lookup Sample.net_all) Sample.cls
           (Sample.post "example.com" "http://example.com/x" "t" []) Sample.w0).
  - split; [reflexivity |]. intros host [= <-]. simpl.
    intros [H | [H | [H | [H | []]]]]; discriminate.
  - reflexivity.
  - split; [reflexivity | simpl; lia].
  - split; reflexivity.
Defined.

(** ** The rewriting of imgur URLs *)

Lemma prefix_app a r : String.prefix a (a ++ r) = true.
Proof.
  induction a as [|c a IH]; simpl; [now destruct r |].
  destruct (ascii_dec c c); [exact IH | congruence].
Qed.

Lemma prefix_app_inv a t : String.prefix a t = true -> exists r, t = a ++ r.
Proof.
  revert t. induction a as [|c a IH]; intros t H.
  - now exists t.
  - destruct t as [|d t]; [discriminate |]. simpl in H.
    destruct (ascii_dec c d) as [-> |]; [| discriminate].
    destruct (IH t H) as [r ->]. now exists r.
Qed.

Lemma prefix_contains n h : String.prefix n h = true -> str_contains n h = true.
Proof. intros H. destruct h; cbn [str_contains]; now rewrite H. Qed.

Lemma contains_cons n c h :
  str_contains n (String c h) = false ->
  String.prefix n (String c h) = false /\ str_contains n h = false.
Proof.
  cbn [str_contains]. destruct (String.prefix n (String c h)); [discriminate | auto].
Qed.

(** A string without ['gifv'] has no ['.gifv'] either. *)
Lemma no_gifv_no_dot_gifv s :
  str_contains "gifv" s = false -> str_contains ".gifv" s = false.
Proof.
  induction s as [|c s IH]; intros H; [reflexivity |].
  apply contains_cons in H as [_ Hs]. cbn [str_contains].
  destruct (String.prefix ".gifv" (String c s)) eqn:E; [| now apply IH].
  apply prefix_app_inv in E as [r E]. injection E as -> ->.
  now rewrite (prefix_contains "gifv" ("gifv" ++ r) (prefix_app "gifv" r)) in Hs.
Qed.

(** [replace] leaves a string without [old] as it is. *)
Lemma replace_absent old new s :
  str_contains old s = false -> str_replace old new s = s.
Proof.
  unfold str_replace. induction s as [|c s IH]; intros H; [reflexivity |].
  apply contains_cons in H as [Hp Hs]. cbn [replace_from].
  rewrite Hp. f_equal. now apply IH.
Qed.

(** ['.gifv'] cannot start inside [p] and run over the end of [p] into
    a ['.gifv'] that follows. *)
Lemma dot_gifv_no_overlap c p :
  String.prefix ".gifv" (String c (p ++ ".gifv")) = true ->
  String.prefix ".gifv" (String c p) = true.
Proof.
  intros H. apply prefix_app_inv in H as [r H].
  injection H as -> H.
  destruct p as [|a [|b [|d [|e p]]]]; simpl in H; try discriminate.
  injection H as -> -> -> -> _. apply (prefix_app ".gifv" p).
Qed.

(** On a string that ends in ['.gifv'] and has no other ['.gifv'],
    [replace] changes the ending. *)
Lemma replace_only_suffix p :
  str_contains ".gifv" p = false ->
  str_replace ".gifv" ".mp4" (p ++ ".gifv") = p ++ ".mp4".
Proof.
  unfold str_replace. induction p as [|c p IH]; intros H; [reflexivity |].
  apply contains_cons in H as [Hp Hs].
  change (String c p ++ ".gifv") with (String c (p ++ ".gifv")).
  cbn [replace_from].
  destruct (String.prefix ".gifv" (String c (p ++ ".gifv"))) eqn:E.
  - apply dot_gifv_no_overlap in E. congruence.
  - change (String c p ++ ".mp4") with (String c (p ++ ".mp4")).
    f_equal. now apply IH.
Qed.

Lemma imgur_target_replace s : imgur_target s = str_replace ".gifv" ".mp4" s.
Proof.
  unfold imgur_target. destruct (str_contains "gifv" s) eqn:E; [reflexivity |].
  symmetry. now apply replace_absent, no_gifv_no_dot_gifv.
Qed.

(** [imgur] on a media URL that is a string. *)
Lemma imgur_unfold env self s w :
  _media_url self = PStr s ->
  imgur env self w
  = try_except (_download_to_local_file env self (PStr (imgur_target s)))
      (fun e => do* logging_error "Error downloading from imgur: " e in ret None) w.
Proof.
  intros H. unfold imgur, imgur_target. rewrite H. cbn [py_contains_str py_replace].
  rewrite bind_lift_ok. now destruct (str_contains "gifv" s).
Qed.

(** C7, as the code has it.  For an imgur post whose media URL is the
    string [s], the URL handed to the fetch, and requested when the
    file is not there yet, is [s] with every ['.gifv'] replaced by
    ['.mp4'], wherever it stands.  So a URL whose only ['.gifv'] is its
    ending has the ending replaced, and a URL without ['.gifv'] is
    fetched as it is. *)
Theorem C7_imgur_replaces_every_gifv env self s w :
  _media_url self = PStr s ->
  imgur env self w
  = try_except (_download_to_local_file env self (PStr (imgur_target s)))
      (fun e => do* logging_error "Error downloading from imgur: " e in ret None) w /\
  imgur_target s = str_replace ".gifv" ".mp4" s /\
  (forall p, s = p ++ ".gifv" -> str_contains ".gifv" p = false ->
     imgur_target s = p ++ ".mp4") /\
  (str_contains ".gifv" s = false -> imgur_target s = s) /\
  (forall name,
     construct_local_filename env (_title self) (ByUrl (PStr (imgur_target s)))
       (_local_download_dir self) = Ok name ->
     fs w !! name = None ->
     fst (imgur env self w) = Ok (Some name) /\
     gets_of (trace (snd (imgur env self w)))
     = (gets_of (trace w) ++ [PStr (imgur_target s)])%list).
Proof.
  intros H. split; [now apply imgur_unfold |].
  split; [apply imgur_target_replace |].
  split; [| split].
  - intros p -> Hp. rewrite imgur_target_replace. now apply replace_only_suffix.
  - intros Hs. rewrite imgur_target_replace. now apply replace_absent.
  - intros name Hn Hf. rewrite (imgur_unfold env self s w H).
    rewrite (try_ok _ _ _ _ _ (download_to_local_file_ok env self _ name w Hn)).
    split; [reflexivity |]. now apply core_download_absent.
Qed.

Lemma C7_imgur_witness :
  gets_of
    (trace (snd (imgur (Sample.env_of Sample.no_lookup Sample.net_all)
                   (mkMediaDownloadHelper (PStr "i.imgur.com")
                      (PStr "http://i.imgur.com/a.gifv") (PStr "t") [] "dl")
                   Sample.w0)))
  = [PStr "http://i.imgur.com/a.mp4"].
Proof.
  exact (proj2 (proj2 (proj2 (proj2 (proj2
           (C7_imgur_replaces_every_gifv
              (Sample.env_of Sample.no_lookup Sample.net_all)
              (mkMediaDownloadHelper (PStr "i.imgur.com")
                 (PStr "http://i.imgur.com/a.gifv") (PStr "t") [] "dl")
              "http://i.imgur.com/a.gifv" Sample.w0 eq_refl))))
           "dl/t_http://i.imgur.com/a.mp4" eq_refl eq_refl)).
Defined.

(** C7, as the claim has it, fails: this media URL does not end in
    ['.gifv'], and the URL requested is not the media URL. *)
Lemma C7_url_without_the_suffix_is_rewritten :
  str_ends_with ".gifv" "http://i.imgur.com/a.gifv?1" = false /\
  gets_of
    (trace (snd (imgur (Sample.env_of Sample.no_lookup Sample.net_all)
                   (mkMediaDownloadHelper (PStr "i.imgur.com")
                      (PStr "http://i.imgur.com/a.gifv?1") (PStr "t") [] "dl")
                   Sample.w0)))
  = [PStr "http://i.imgur.com/a.mp4?1"].
Proof. split; vm_compute; reflexivity. Qed.

(** ** The two stages of [download] *)

Section Stages.

Variable env : Env.

(** [download_body] is its primary stage followed, when that stage
    ends without a valid file, by its fallback stage. *)
Lemma download_body_stages self w :
  download_body env self w
  = bind (primary_stage env self)
      (fun ok => if ok then ret true else fallback_stage env self) w.
Proof.
  unfold download_body, primary_stage, fallback_stage, bind, ret, lift.
  destruct (domain_mappings env (_domain self)) as [handler|e]; [| reflexivity].
  destruct (handler self w) as [[[name|]|e] w1]; [| | reflexivity].
  - destruct (check_if_empty_and_delete_file env name w1) as [[[]|e] w2];
      cbn [negb py_or]; try reflexivity.
    destruct (_attempt_naive_preview_download env self w2) as [[[n|]|e] w3];
      try reflexivity.
    destruct (check_if_empty_and_delete_file env n w3) as [[[]|e] w4];
      reflexivity.
  - cbn [negb].
    destruct (_attempt_naive_preview_download env self w1) as [[[n|]|e] w3];
      try reflexivity.
    destruct (check_if_empty_and_delete_file env n w3) as [[[]|e] w4];
      reflexivity.
Qed.

Lemma download_primary_ok self w w1 :
  primary_stage env self w = (Ok true, w1) ->
  download env self w = (Ok true, w1).
Proof.
  intros H. unfold download, try_except. rewrite download_body_stages.
  unfold bind. now rewrite H.
Qed.

Lemma download_fallback self w w1 :
  primary_stage env self w = (Ok false, w1) ->
  download env self w
  = match fallback_stage env self w1 with
    | (Ok b, w2) => (Ok b, w2)
    | (Raise e, w2) =>
        (Ok false, emit (EvLog ("Error downloading media: " ++ exn_msg e)) w2)
    end.
Proof.
  intros H. unfold download, try_except. rewrite download_body_stages.
  unfold bind at 1. rewrite H.
  now destruct (fallback_stage env self w1) as [[b|e] w2].
Qed.

Lemma download_primary_raises self w e w1 :
  primary_stage env self w = (Raise e, w1) ->
  download env self w
  = (Ok false, emit (EvLog ("Error downloading media: " ++ exn_msg e)) w1).
Proof.
  intros H. unfold download, try_except. rewrite download_body_stages.
  unfold bind at 1. now rewrite H.
Qed.

End Stages.

(** ** Exceptions *)

Section TryBlocks.

Variable env : Env.

Lemma core_download_try url path :
  _core_download env url path
  = try_except (core_download_body env url path)
      (fun e => logging_error "Error in core download: " e).
Proof. reflexivity. Qed.

Lemma gfycat_try self :
  gfycat env self
  = try_except (gfycat_body env self)
      (fun e => do* logging_error "Error downloading from gfycat: " e in ret None).
Proof. reflexivity. Qed.

Lemma imgur_try self :
  imgur env self
  = try_except (imgur_body env self)
      (fun e => do* logging_error "Error downloading from imgur: " e in ret None).
Proof. reflexivity. Qed.

Lemma ireddit_try self :
  ireddit env self
  = try_except (ireddit_body env self)
      (fun e => do* logging_error "Error downloading from i.redd.it: " e in ret None).
Proof. reflexivity. Qed.

Lemma redgifs_try self :
  redgifs env self
  = try_except (redgifs_body env self)
      (fun e => do* logging_error "Error downloading from redgifs: " e in ret None).
Proof. reflexivity. Qed.

Lemma naive_preview_try self :
  _attempt_naive_preview_download env self
  = try_except (naive_preview_body env self)
      (fun e => do* logging_error "Error downloading naive preview: " e in ret None).
Proof. reflexivity. Qed.

(** What a [try] block of [downloaders.py] does with an exception of
    its body: one log line, then the value of its [except]. *)
Lemma try_logs {A} (body : M A) pre (x : A) w e w' :
  body w = (Raise e, w') ->
  try_except body (fun e => do* logging_error pre e in ret x) w
  = (Ok x, emit (EvLog (pre ++ exn_msg e)) w').
Proof. intros H. unfold try_except. now rewrite H. Qed.

End TryBlocks.

(** C8, as the code has it.  No exception leaves [download_post], nor
    [download], nor any host handler, nor the preview download, nor
    [_core_download]: each of them returns in every world.  Every
    [try] block catches what its own statements raise and logs it
    under its own prefix: [_core_download] then returns as usual, a
    host handler and the preview download return [None], [download]
    returns [False], which [download_post] passes to
    [increment_counter], and [download_post] returns [None]. *)
Theorem C8_no_exception_leaves_download_post env cls post_details :
  total (download_post env cls post_details) /\
  (forall self,
     total (download env self) /\ total (gfycat env self) /\
     total (imgur env self) /\ total (ireddit env self) /\
     total (redgifs env self) /\ total (do_nothing self) /\
     total (_attempt_naive_preview_download env self)) /\
  (forall url path, total (_core_download env url path)) /\
  (forall url path w e w',
     core_download_body env url path w = (Raise e, w') ->
     _core_download env url path w
     = (Ok tt, emit (EvLog ("Error in core download: " ++ exn_msg e)) w')) /\
  (forall self w e w',
     (gfycat_body env self w = (Raise e, w') ->
      gfycat env self w
      = (Ok None, emit (EvLog ("Error downloading from gfycat: " ++ exn_msg e)) w')) /\
     (imgur_body env self w = (Raise e, w') ->
      imgur env self w
      = (Ok None, emit (EvLog ("Error downloading from imgur: " ++ exn_msg e)) w')) /\
     (ireddit_body env self w = (Raise e, w') ->
      ireddit env self w
      = (Ok None, emit (EvLog ("Error downloading from i.redd.it: " ++ exn_msg e)) w')) /\
     (redgifs_body env self w = (Raise e, w') ->
      redgifs env self w
      = (Ok None, emit (EvLog ("Error downloading from redgifs: " ++ exn_msg e)) w')) /\
     (naive_preview_body env self w = (Raise e, w') ->
      _attempt_naive_preview_download env self w
      = (Ok None, emit (EvLog ("Error downloading naive preview: " ++ exn_msg e)) w')) /\
     (download_body env self w = (Raise e, w') ->
      download env self w
      = (Ok false, emit (EvLog ("Error downloading media: " ++ exn_msg e)) w'))) /\
  (forall w e w',
     download_post_body env cls post_details w = (Raise e, w') ->
     download_post env cls post_details w
     = (Ok PNone, emit (EvLog ("Error downloading post: " ++ exn_msg e)) w')) /\
  (forall w e w',
     under_quota env cls w -> well_formed post_details ->
     download_body env (helper_of cls post_details) w = (Raise e, w') ->
     incrs_of (trace (snd (download_post env cls post_details w)))
     = (incrs_of (trace w) ++ [false])%list).
Proof.
  split; [apply download_post_total |].
  split.
  { intros self.
    auto 10 using download_total, gfycat_total, imgur_total, ireddit_total,
      redgifs_total, do_nothing_total, naive_preview_total. }
  split; [apply core_download_total |].
  split.
  { intros url path w e w' H. rewrite core_download_try.
    unfold try_except. now rewrite H. }
  split.
  { intros self w e w'.
    rewrite gfycat_try, imgur_try, ireddit_try, redgifs_try, naive_preview_try.
    unfold download. repeat split; apply try_logs. }
  split.
  { intros w e w' H. unfold download_post. now apply try_logs. }
  intros w e w' Hq Hwf H.
  assert (E : download env (helper_of cls post_details) w
              = (Ok false, emit (EvLog ("Error downloading media: " ++ exn_msg e)) w')).
  { unfold download. now apply try_logs. }
  apply (download_post_reports_trace env cls post_details w _ _ Hq Hwf E).
Qed.

Lemma C8_unhashable_domain_witness :
  let p := [("domain", PList []); ("url", PStr "http://x"); ("title", PStr "t")] in
  incrs_of
    (trace (snd (download_post (Sample.env_of Sample.no_lookup Sample.net_all)
                   Sample.cls p Sample.w0)))
  = [false].
Proof.
  exact (proj2 (proj2 (proj2 (proj2 (proj2 (proj2
           (C8_no_exception_leaves_download_post
              (Sample.env_of Sample.no_lookup Sample.net_all) Sample.cls
              [("domain", PList []); ("url", PStr "http://x"); ("title", PStr "t")]))))))
           Sample.w0 (Exn "TypeError" "unhashable type: 'list'") Sample.w0
           (conj eq_refl eq_refl) (conj eq_refl eq_refl) eq_refl).
Defined.

(** C8, as the claim has it, fails: here the lookup of the gfycat URL
    raises during resolution, the handler of [gfycat] logs it, the
    preview is downloaded instead, and the outcome passed to
    [increment_counter] is a success. *)
Lemma C8_exception_in_resolution_then_success :
  get_gfycat_redgif_url (Sample.env_of Sample.failing_lookup (Sample.net_one "http://p"))
    (PStr "http://gfycat.com/abc") "gfycat"
  = Raise (Exn "ConnectionError" "lookup failed") /\
  download_post (Sample.env_of Sample.failing_lookup (Sample.net_one "http://p"))
    Sample.cls
    (Sample.post "gfycat.com" "http://gfycat.com/abc" "t"
       [("preview", Sample.preview_of "http://p")])
    Sample.w0
  = (Ok PNone,
     mkWorld {[ "dl/t.jpg" := [Byte.x2a] ]} 1
       [EvLookup (PStr "http://gfycat.com/abc") "gfycat";
        EvLog "Error downloading from gfycat: lookup failed";
        EvGet (PStr "http://p");
        EvIncrement true]).
Proof. split; vm_compute; reflexivity. Qed.

(** ** The fallback *)

Section Fallback.

Variable env : Env.


(** With a preview URL and a file name, the preview download is one
    call of [_core_download]. *)
Lemma naive_preview_fetches self u name w :
  dict_has "preview" (_post_details self) = true ->
  preview_url (_post_details self) = Ok u ->
  preview_name env self = Ok name ->
  _attempt_naive_preview_download env self w
  = (Ok (Some name), snd (_core_download env u name w)).
Proof.
  unfold preview_name. intros Hp Hu Hn.
  unfold _attempt_naive_preview_download. rewrite Hp, Hu, Hn. cbn [negb].
  rewrite !bind_lift_ok.
  destruct (core_download_total env u name w) as ([] & w' & E).
  unfold try_except, bind. now rewrite E.
Qed.

(** Without one of them, it returns [None] and at most logs. *)
Lemma naive_preview_gives_up self w :
  dict_has "preview" (_post_details self) = false \/
  (exists e, preview_url (_post_details self) = Raise e) \/
  (exists e, preview_name env self = Raise e) ->
  exists w',
    _attempt_naive_preview_download env self w = (Ok None, w') /\
    fs w' = fs w /\ gets_of (trace w') = gets_of (trace w).
Proof.
  unfold preview_name, _attempt_naive_preview_download.
  destruct (dict_has "preview" (_post_details self)) eqn:Hp; cbn [negb].
  2:{ intros _. exists w. now repeat split. }
  intros [H | [[e H] | [e H]]]; [discriminate | |].
  - rewrite H. eexists. split; [reflexivity |]. simpl.
    rewrite gets_of_app. simpl. now rewrite app_nil_r.
  - rewrite H.
    destruct (preview_url (_post_details self)) as [u|e'];
      (eexists; split; [reflexivity |]; simpl; rewrite gets_of_app; simpl;
       now rewrite app_nil_r).
Qed.

(** The three cases of the preview download. *)
Lemma naive_preview_cases self w :
  (exists u name,
     dict_has "preview" (_post_details self) = true /\
     preview_url (_post_details self) = Ok u /\
     preview_name env self = Ok name /\
     _attempt_naive_preview_download env self w
     = (Ok (Some name), snd (_core_download env u name w)))
  \/
  ((dict_has "preview" (_post_details self) = false \/
    (exists e, preview_url (_post_details self) = Raise e) \/
    (exists e, preview_name env self = Raise e)) /\
   exists w',
     _attempt_naive_preview_download env self w = (Ok None, w') /\
     fs w' = fs w /\ gets_of (trace w') = gets_of (trace w)).
Proof.
  destruct (dict_has "preview" (_post_details self)) eqn:Hp.
  2:{ right. split; [now left |]. apply naive_preview_gives_up. now left. }
  destruct (preview_url (_post_details self)) as [u|e] eqn:Hu.
  2:{ right. split; [right; left; eauto |].
      apply naive_preview_gives_up. right. left. eauto. }
  destruct (preview_name env self) as [name|e] eqn:Hn.
  2:{ right. split; [right; right; eauto |].
      apply naive_preview_gives_up. right. right. eauto. }
  left. exists u, name. repeat split; auto using naive_preview_fetches.
Qed.

Lemma check_only_at path :
  preserves (only_at path) (check_if_empty_and_delete_file env path).
Proof.
  intros w q Hq. unfold check_if_empty_and_delete_file.
  destruct (check_fault env path _); [reflexivity |].
  destruct (fs w !! path) as [[|]|]; simpl; try reflexivity.
  now apply lookup_delete_ne.
Qed.

(** The requests of the preview download are [fallback_gets]. *)
Lemma naive_preview_gets self w :
  gets_of (trace (snd (_attempt_naive_preview_download env self w)))
  = (gets_of (trace w) ++ fallback_gets env self w)%list.
Proof.
  unfold fallback_gets.
  destruct (naive_preview_cases self w)
    as [(u & name & Hp & Hu & Hn & E) | (Hno & w' & E & _ & Hg)]; rewrite E; simpl.
  - rewrite Hp, Hu, Hn.
    destruct (fs w !! name) as [c|] eqn:Hf.
    + rewrite core_download_exists by (rewrite Hf; eauto). simpl.
      now rewrite app_nil_r.
    + now apply core_download_absent.
  - rewrite Hg. rewrite <- (app_nil_r (gets_of (trace w))) at 1. f_equal.
    destruct Hno as [-> | [[e ->] | [e ->]]]; [reflexivity | |].
    + now destruct (dict_has "preview" (_post_details self)).
    + destruct (dict_has "preview" (_post_details self)); [| reflexivity].
      now destruct (preview_url (_post_details self)).
Qed.

(** The fallback stage makes the requests of [fallback_gets] and
    touches no file but the preview file. *)
Lemma fallback_stage_frame self w :
  let wf := snd (fallback_stage env self w) in
  gets_of (trace wf) = (gets_of (trace w) ++ fallback_gets env self w)%list /\
  forall q, preview_name env self <> Ok q -> fs wf !! q = fs w !! q.
Proof.
  cbv zeta.
  pose proof (naive_preview_gets self w) as Hg.
  destruct (naive_preview_cases self w)
    as [(u & name & Hp & Hu & Hn & E) | (Hno & w' & E & Hf & _)];
    rewrite E in Hg; simpl in Hg.
  - set (wc := snd (_core_download env u name w)) in *.
    assert (Hs : fallback_stage env self w
                 = bind (check_if_empty_and_delete_file env name)
                     (fun b => ret (negb b)) wc).
    { unfold fallback_stage, bind at 1. now rewrite E. }
    rewrite Hs.
    pose proof (core_download_only_at env u name w) as Ho.
    pose proof (check_only_at name wc) as Hc.
    pose proof (check_no_get env name wc) as Hn'.
    fold wc in Ho. unfold no_get in Hn'. unfold only_at in Ho, Hc. unfold bind.
    destruct (check_if_empty_and_delete_file env name wc) as [[b|e] w2];
      simpl in *; (split; [congruence |]);
      intros q Hq; (assert (q <> name) by congruence);
      rewrite Hc, Ho; auto.
  - assert (Hs : fallback_stage env self w = (Ok false, w')).
    { unfold fallback_stage, bind at 1. now rewrite E. }
    rewrite Hs. simpl. split; [exact Hg |]. intros q _. now rewrite Hf.
Qed.

(** The validator on a file that holds bytes. *)
Lemma check_valid name c w :
  fs w !! name = Some c -> c <> [] ->
  check_fault env name (Some c) = None ->
  check_if_empty_and_delete_file env name w = (Ok false, w).
Proof.
  intros Hf Hc Hn. unfold check_if_empty_and_delete_file. rewrite Hf, Hn.
  now destruct c.
Qed.

Lemma check_valid_inv name w w' :
  check_if_empty_and_delete_file env name w = (Ok false, w') ->
  w' = w /\
  exists c, c <> [] /\ fs w !! name = Some c /\ check_fault env name (Some c) = None.
Proof.
  unfold check_if_empty_and_delete_file.
  destruct (fs w !! name) as [[|b c]|] eqn:E;
    destruct (check_fault env name _) eqn:F; try discriminate.
  intros [= <-]. split; [reflexivity |].
  exists (b :: c). now repeat split.
Qed.




End Fallback.



(** ** Running [download] again *)

Section Again.

Variable env : Env.

Lemma download_to_local_file_inv self url name w w1 :
  _download_to_local_file env self url w = (Ok (Some name), w1) ->
  construct_local_filename env (_title self) (ByUrl url) (_local_download_dir self)
  = Ok name.
Proof.
  destruct (construct_local_filename env (_title self) (ByUrl url)
              (_local_download_dir self)) as [n|e] eqn:E.
  - rewrite (download_to_local_file_ok env self url n w E). now intros [= ->].
  - rewrite (download_to_local_file_raise env self url e w E). discriminate.
Qed.

(** With the file in place, [_download_to_local_file] returns its name
    and does nothing. *)
Lemma download_to_local_file_skip self url name w :
  construct_local_filename env (_title self) (ByUrl url) (_local_download_dir self)
  = Ok name ->
  is_Some (fs w !! name) ->
  _download_to_local_file env self url w = (Ok (Some name), w).
Proof.
  intros Hn Hf. rewrite (download_to_local_file_ok env self url name w Hn).
  now rewrite core_download_exists.
Qed.

(** A handler of [downloaders.py] that returned a file name did not
    go through its [except]. *)
Lemma try_some_inv {A} (body : M (option A)) pre w x w1 :
  try_except body (fun e => do* logging_error pre e in ret None) w = (Ok (Some x), w1) ->
  body w = (Ok (Some x), w1).
Proof.
  unfold try_except. destruct (body w) as [[r|e] w']; [auto | discriminate].
Qed.

Lemma primary_stage_keeps self : preserves keeps (primary_stage env self).
Proof.
  unfold primary_stage.
  destruct (domain_mappings env (_domain self)) as [handler|e] eqn:E.
  - rewrite bind_lift_ok. pose proof (handler_keeps env _ _ self E).
    pose proof (check_keeps env). pres.
  - rewrite bind_lift_raise. pres.
Qed.

End Again.

(** *** A later run, among collaborators of its own *)

Lemma emits_nil w : emits [] w = w.
Proof. destruct w. unfold emits. simpl. now rewrite app_nil_r. Qed.

Section SecondRun.

Variables env env2 : Env.
Hypothesis Hnames : same_names env env2.

(** With the file that the first run named in place, the fetch of a
    later run returns that name and does nothing. *)
Lemma download_to_local_file_again self url name w w1 w2 :
  _download_to_local_file env self url w = (Ok (Some name), w1) ->
  is_Some (fs w2 !! name) ->
  _download_to_local_file env2 self url w2 = (Ok (Some name), w2).
Proof.
  intros H Hf. apply download_to_local_file_inv in H.
  apply download_to_local_file_skip; [now rewrite Hnames | exact Hf].
Qed.

Lemma ireddit_again self name w w1 w2 :
  ireddit env self w = (Ok (Some name), w1) ->
  is_Some (fs w2 !! name) ->
  ireddit env2 self w2 = (Ok (Some name), emits [] w2).
Proof.
  intros H Hf. apply try_some_inv in H. rewrite emits_nil.
  unfold ireddit. apply try_ok. eapply download_to_local_file_again; eauto.
Qed.

Lemma imgur_again self name w w1 w2 :
  imgur env self w = (Ok (Some name), w1) ->
  is_Some (fs w2 !! name) ->
  imgur env2 self w2 = (Ok (Some name), emits [] w2).
Proof.
  intros H Hf. apply try_some_inv in H. rewrite emits_nil.
  unfold imgur. apply try_ok. revert H.
  destruct (py_contains_str "gifv" (_media_url self)) as [[|]|e];
    [| | discriminate]; rewrite !bind_lift_ok.
  - destruct (py_replace ".gifv" ".mp4" (_media_url self)) as [u|e];
      [| discriminate].
    rewrite !bind_lift_ok. intros H. eapply download_to_local_file_again; eauto.
  - rewrite !bind_ret. intros H. eapply download_to_local_file_again; eauto.
Qed.

(** The two handlers that look the URL up first: the lookup is made
    again, and has to answer as it did. *)
Lemma lookup_again self domain_type pre name w w1 w2 :
  same_lookup env env2 self ->
  try_except
    (let* u := lookup_url env (_media_url self) domain_type in
     if negb (is_none u) then _download_to_local_file env self u else ret None)
    (fun e => do* logging_error pre e in ret None) w
  = (Ok (Some name), w1) ->
  is_Some (fs w2 !! name) ->
  try_except
    (let* u := lookup_url env2 (_media_url self) domain_type in
     if negb (is_none u) then _download_to_local_file env2 self u else ret None)
    (fun e => do* logging_error pre e in ret None) w2
  = (Ok (Some name), emits [EvLookup (_media_url self) domain_type] w2).
Proof.
  intros Hl H Hf. apply try_some_inv in H. revert H.
  unfold bind at 1, lookup_url.
  destruct (get_gfycat_redgif_url env (_media_url self) domain_type) as [u|e] eqn:El;
    [| discriminate].
  destruct (negb (is_none u)) eqn:Eu; [| discriminate].
  intros H. apply try_ok. unfold bind at 1, lookup_url.
  rewrite Hl, El. cbv beta iota. rewrite Eu.
  eapply download_to_local_file_again; eauto.
Qed.

(** The stage made of a handler and the validation of the file it
    names, run again. *)
Lemma stage_again (handler handler2 : MediaDownloadHelper -> M (option string))
    evs self w0 w1 :
  (forall name w wa w2,
     handler self w = (Ok (Some name), wa) ->
     is_Some (fs w2 !! name) ->
     handler2 self w2 = (Ok (Some name), emits evs w2)) ->
  (let* local_filename := handler self in
   match local_filename with
   | Some name =>
       let* is_empty := check_if_empty_and_delete_file env name in
       ret (negb is_empty)
   | None => ret false
   end) w0 = (Ok true, w1) ->
  exists name c,
    c <> [] /\ fs w1 !! name = Some c /\
    (check_fault env2 name (Some c) = None ->
     forall w2, fs w2 !! name = Some c ->
       (let* local_filename := handler2 self in
        match local_filename with
        | Some name =>
            let* is_empty := check_if_empty_and_delete_file env2 name in
            ret (negb is_empty)
        | None => ret false
        end) w2 = (Ok true, emits evs w2)).
Proof.
  intros Hag. unfold bind at 1.
  destruct (handler self w0) as [[[name|]|e] wa] eqn:Eh; try discriminate.
  unfold bind at 1.
  destruct (check_if_empty_and_delete_file env name wa) as [[[|]|e] wb] eqn:Ec;
    try discriminate.
  intros [= <-]. apply check_valid_inv in Ec as (-> & c & Hc & Hf & _).
  exists name, c. split; [exact Hc |]. split; [exact Hf |].
  intros Hcf w2 Hf2. unfold bind at 1.
  rewrite (Hag name w0 wa w2 Eh) by (rewrite Hf2; eauto).
  unfold bind. now rewrite (check_valid env2 name c (emits evs w2) Hf2 Hc Hcf).
Qed.

(** A primary stage that found a valid file finds it again, without a
    request and with no change but the lookup made again, wherever
    that file is still in place. *)
Lemma primary_stage_again self w0 w1 :
  same_lookup env env2 self ->
  primary_stage env self w0 = (Ok true, w1) ->
  exists name c,
    c <> [] /\ fs w1 !! name = Some c /\
    (check_fault env2 name (Some c) = None ->
     forall w2, fs w2 !! name = Some c ->
       primary_stage env2 self w2 = (Ok true, emits (lookups_of self) w2)).
Proof.
  intros Hl. unfold primary_stage, domain_mappings, lookups_of.
  assert (Hn : forall evs name w wa w2,
            do_nothing self w = (Ok (Some name), wa) ->
            is_Some (fs w2 !! name) ->
            do_nothing self w2 = (Ok (Some name), emits evs w2))
    by discriminate.
  destruct (_domain self) as [| | | |d| |];
    rewrite ?bind_lift_raise, ?bind_lift_ok; try discriminate;
    try (apply stage_again; apply Hn).
  destruct (String.eqb d "gfycat.com").
  { rewrite !bind_lift_ok. apply stage_again. intros name w wa w2.
    unfold gfycat. now apply lookup_again. }
  destruct (String.eqb d "i.imgur.com").
  { rewrite !bind_lift_ok. apply stage_again. apply imgur_again. }
  destruct (String.eqb d "i.redd.it").
  { rewrite !bind_lift_ok. apply stage_again. apply ireddit_again. }
  destruct (String.eqb d "redgifs.com").
  { rewrite !bind_lift_ok. apply stage_again. intros name w wa w2.
    unfold redgifs. now apply lookup_again. }
  rewrite !bind_lift_ok. apply stage_again. apply Hn.
Qed.

(** A fallback stage that found a valid file finds it again, and does
    nothing, wherever that file is still in place. *)
Lemma fallback_stage_again self wa wb :
  fallback_stage env self wa = (Ok true, wb) ->
  exists name c,
    c <> [] /\ fs wb !! name = Some c /\ preview_name env self = Ok name /\
    (check_fault env2 name (Some c) = None ->
     forall w2, fs w2 !! name = Some c ->
       fallback_stage env2 self w2 = (Ok true, w2)).
Proof.
  unfold fallback_stage at 1, bind at 1.
  destruct (naive_preview_cases env self wa)
    as [(u & name & Hp & Hu & Hn & E) | (_ & w' & E & _)]; rewrite E;
    [| discriminate].
  unfold bind.
  destruct (check_if_empty_and_delete_file env name _) as [[[|]|e] wc] eqn:Ec;
    try discriminate.
  intros [= <-]. apply check_valid_inv in Ec as (-> & c & Hc & Hf & _).
  exists name, c. repeat split; auto.
  intros Hcf w2 Hf2. unfold fallback_stage, bind at 1.
  assert (Hn2 : preview_name env2 self = Ok name)
    by (unfold preview_name in *; now rewrite Hnames).
  rewrite (naive_preview_fetches env2 self u name w2 Hp Hu Hn2).
  rewrite core_download_exists by (rewrite Hf2; eauto). simpl.
  unfold bind. now rewrite (check_valid env2 name c w2 Hf2 Hc Hcf).
Qed.

(** With a validator that reads every path, the primary stage of a
    post whose domain was looked up in the first run returns. *)
Lemma primary_stage_returns self w0 b wa w2 :
  validator_ok env2 ->
  primary_stage env self w0 = (Ok b, wa) ->
  exists b2 w2', primary_stage env2 self w2 = (Ok b2, w2').
Proof.
  intros Hv. unfold primary_stage.
  destruct (domain_mappings env2 (_domain self)) as [handler|e] eqn:Ed.
  - intros _. rewrite bind_lift_ok. unfold bind at 1.
    destruct (handler_total env2 _ _ self Ed w2) as ([name|] & w' & ->);
      [| eauto].
    unfold bind, check_if_empty_and_delete_file. rewrite Hv.
    destruct (fs w' !! name) as [[|]|]; eauto.
  - assert (Hr : domain_mappings env (_domain self) = Raise e).
    { revert Ed. unfold domain_mappings.
      destruct (_domain self); try discriminate; try (now intros [= <-]).
      repeat match goal with
             | |- context [if ?c then _ else _] => destruct c
             end; discriminate. }
    rewrite Hr, bind_lift_raise. discriminate.
Qed.

(** [download] run again after a first run that found its file in the
    fallback: it succeeds again and the file stays. *)
Lemma download_again_after_fallback self name c w0 b wa w2 :
  validator_ok env2 ->
  primary_stage env self w0 = (Ok b, wa) ->
  c <> [] ->
  (forall w, fs w !! name = Some c -> fallback_stage env2 self w = (Ok true, w)) ->
  fs w2 !! name = Some c ->
  exists w2', download env2 self w2 = (Ok true, w2') /\ fs w2' !! name = Some c.
Proof.
  intros Hv Ep Hc Hag Hf2.
  pose proof (primary_stage_keeps env2 self w2 name c Hf2 Hc) as Hk.
  destruct (primary_stage_returns self w0 b wa w2 Hv Ep) as ([|] & w2a & Ep2);
    rewrite Ep2 in Hk; simpl in Hk.
  - exists w2a. split; [now apply download_primary_ok | exact Hk].
  - exists w2a. split; [| exact Hk].
    rewrite (download_fallback env2 self w2 w2a Ep2). now rewrite (Hag w2a Hk).
Qed.

End SecondRun.

(** C5, as the code has it.  A fetch whose destination exists makes no
    request, returns as after a transfer and leaves the world as it
    is.  A later run of [download] on the same post, with the output
    file of the first run still in place, may find other collaborators
    ([env2]); file names are built as before.  If the output file came
    from the primary stage, the lookup of [gfycat] and [redgifs], made
    again, answers as before and the validator reads that file, then
    the later run succeeds again and changes nothing but the trace,
    which gains that lookup and no request; a later [download_post]
    that the quota lets through reports [True] again.  If the output
    file came from the fallback and the validator reads every path,
    then the fallback of a later run does nothing and finds the file
    valid, and the later run succeeds again with the file in place,
    and reports [True] again; the handler of the domain is run afresh
    before that, and may make a request. *)
Theorem C5_existing_file_is_not_fetched_again env env2 cls post_details :
  let self := helper_of cls post_details in
  (forall url path w,
     is_Some (fs w !! path) -> _core_download env url path w = (Ok tt, w)) /\
  (same_names env env2 -> same_lookup env env2 self ->
   forall w0 wa,
     primary_stage env self w0 = (Ok true, wa) ->
     download env self w0 = (Ok true, wa) /\
     exists name c,
       c <> [] /\ fs wa !! name = Some c /\
       (check_fault env2 name (Some c) = None ->
        (forall w2, fs w2 !! name = Some c ->
           download env2 self w2 = (Ok true, emits (lookups_of self) w2)) /\
        (well_formed post_details -> under_quota env cls w0 ->
         let w1 := snd (download_post env cls post_details w0) in
         under_quota env2 cls w1 ->
         let w2 := snd (download_post env2 cls post_details w1) in
         fs w1 !! name = Some c /\
         fs w2 = fs w1 /\
         gets_of (trace w2) = gets_of (trace w1) /\
         incrs_of (trace w1) = (incrs_of (trace w0) ++ [true])%list /\
         incrs_of (trace w2) = (incrs_of (trace w1) ++ [true])%list))) /\
  (same_names env env2 -> validator_ok env2 ->
   forall w0 wa wb,
     primary_stage env self w0 = (Ok false, wa) ->
     fallback_stage env self wa = (Ok true, wb) ->
     download env self w0 = (Ok true, wb) /\
     exists name c,
       c <> [] /\ fs wb !! name = Some c /\ preview_name env self = Ok name /\
       (forall w2, fs w2 !! name = Some c ->
          fallback_stage env2 self w2 = (Ok true, w2) /\
          exists w2',
            download env2 self w2 = (Ok true, w2') /\ fs w2' !! name = Some c) /\
       (well_formed post_details -> under_quota env cls w0 ->
        let w1 := snd (download_post env cls post_details w0) in
        under_quota env2 cls w1 ->
        let w2 := snd (download_post env2 cls post_details w1) in
        fs w1 !! name = Some c /\
        fs w2 !! name = Some c /\
        incrs_of (trace w1) = (incrs_of (trace w0) ++ [true])%list /\
        incrs_of (trace w2) = (incrs_of (trace w1) ++ [true])%list)).
Proof.
  cbv zeta. set (self := helper_of cls post_details).
  split; [apply core_download_exists |]. split.
  - intros Hnames Hl w0 wa Ep.
    pose proof (download_primary_ok env self w0 wa Ep) as E0.
    split; [exact E0 |].
    destruct (primary_stage_again env env2 Hnames self w0 wa Hl Ep)
      as (name & c & Hc & Hf & Hag).
    exists name, c. split; [exact Hc |]. split; [exact Hf |].
    intros Hcf.
    assert (Hdl : forall w2, fs w2 !! name = Some c ->
      download env2 self w2 = (Ok true, emits (lookups_of self) w2)).
    { intros w2 Hf2. apply download_primary_ok. now apply Hag. }
    split; [exact Hdl |].
    intros Hwf Hq0 Hq1.
    destruct (download_post_reports_trace env cls post_details w0 true wa Hq0 Hwf E0)
      as (_ & Hfs1 & _ & Hi1).
    set (w1 := snd (download_post env cls post_details w0)) in *.
    assert (Hf1 : fs w1 !! name = Some c) by now rewrite Hfs1.
    destruct (download_post_reports_trace env2 cls post_details w1 true _ Hq1 Hwf
                (Hdl w1 Hf1)) as (_ & Hfs2 & Hg2 & Hi2).
    split; [exact Hf1 |]. split; [exact Hfs2 |]. split; [| now split].
    rewrite Hg2. unfold emits. cbn [trace]. rewrite gets_of_app.
    assert (Hno : gets_of (lookups_of self) = []).
    { unfold lookups_of. destruct (_domain self); try reflexivity.
      repeat match goal with
             | |- context [if ?c then _ else _] => destruct c
             end; reflexivity. }
    now rewrite Hno, app_nil_r.
  - intros Hnames Hv w0 wa wb Ep Ef.
    assert (E0 : download env self w0 = (Ok true, wb)).
    { rewrite (download_fallback env self w0 wa Ep). now rewrite Ef. }
    split; [exact E0 |].
    destruct (fallback_stage_again env env2 Hnames self wa wb Ef)
      as (name & c & Hc & Hf & Hn & Hag).
    specialize (Hag (Hv _ _)).
    exists name, c. split; [exact Hc |]. split; [exact Hf |]. split; [exact Hn |].
    assert (Hdl : forall w2, fs w2 !! name = Some c ->
      exists w2', download env2 self w2 = (Ok true, w2') /\ fs w2' !! name = Some c)
      by (intros w2; now apply (download_again_after_fallback env env2 self name c
                                  w0 false wa w2)).
    split; [intros w2 Hf2; split; [now apply Hag | now apply Hdl] |].
    intros Hwf Hq0 Hq1.
    destruct (download_post_reports_trace env cls post_details w0 true wb Hq0 Hwf E0)
      as (_ & Hfs1 & _ & Hi1).
    set (w1 := snd (download_post env cls post_details w0)) in *.
    assert (Hf1 : fs w1 !! name = Some c) by now rewrite Hfs1.
    destruct (Hdl w1 Hf1) as (w1' & E1 & Hf1').
    destruct (download_post_reports_trace env2 cls post_details w1 true w1' Hq1 Hwf E1)
      as (_ & Hfs2 & _ & Hi2).
    split; [exact Hf1 |]. split; [now rewrite Hfs2 |]. now split.
Qed.

(** Two runs on a gfycat post, the second on a network where every
    request fails: the second run makes the lookup again and no
    request, leaves the files as they are and reports [True] again. *)
Lemma C5_existing_file_witness :
  let lookup := fun (_ : PyVal) (_ : string) => Ok (PStr "http://g/x.mp4") in
  let p := Sample.post "gfycat.com" "http://gfycat.com/x" "cat" [] in
  let w1 := snd (download_post (Sample.env_of lookup Sample.net_all) Sample.cls p
                   Sample.w0) in
  let w2 := snd (download_post (Sample.env_of lookup Sample.net_404) Sample.cls p
                   w1) in
  fs w2 = fs w1 /\
  gets_of (trace w2) = gets_of (trace w1) /\
  incrs_of (trace w1) = [true] /\
  incrs_of (trace w2) = (incrs_of (trace w1) ++ [true])%list.
Proof.
  cbv zeta.
  assert (Ep : primary_stage
                 (Sample.env_of (fun _ _ => Ok (PStr "http://g/x.mp4")) Sample.net_all)
                 (helper_of Sample.cls
                    (Sample.post "gfycat.com" "http://gfycat.com/x" "cat" []))
                 Sample.w0
               = (Ok true,
                  mkWorld {[ "dl/cat_http://g/x.mp4" := [Byte.x2a] ]} 0
                    [EvLookup (PStr "http://gfycat.com/x") "gfycat";
                     EvGet (PStr "http://g/x.mp4")]))
    by (vm_compute; reflexivity).
  destruct (proj1 (proj2
              (C5_existing_file_is_not_fetched_again
                 (Sample.env_of (fun _ _ => Ok (PStr "http://g/x.mp4")) Sample.net_all)
                 (Sample.env_of (fun _ _ => Ok (PStr "http://g/x.mp4")) Sample.net_404)
                 Sample.cls
                 (Sample.post "gfycat.com" "http://gfycat.com/x" "cat" [])))
              (fun _ _ _ => eq_refl) (fun _ => eq_refl) _ _ Ep)
    as (_ & name & c & _ & _ & H).
  destruct (H eq_refl) as (_ & Hpost).
  destruct (Hpost (conj eq_refl eq_refl) (conj eq_refl eq_refl)
              ltac:(split; [reflexivity | vm_compute; reflexivity]))
    as (_ & Hfs & Hg & Hi1 & Hi2).
  split; [exact Hfs |]. split; [exact Hg |]. split; [exact Hi1 | exact Hi2].
Defined.

(** C5, as the claim has it, fails: the first [download_post] gets the
    preview because the primary URL cannot be reached; with that
    output file in place, the second [download_post] requests the
    primary URL again. *)
Lemma C5_primary_is_requested_again :
  let env := Sample.env_of Sample.no_lookup (Sample.net_one "http://p") in
  let p := Sample.post "i.redd.it" "http://i.redd.it/x.jpg" "cat"
             [("preview", Sample.preview_of "http://p")] in
  let w1 := snd (download_post env Sample.cls p Sample.w0) in
  let w2 := snd (download_post env Sample.cls p w1) in
  incrs_of (trace w1) = [true] /\
  fs w1 = {[ "dl/cat.jpg" := [Byte.x2a] ]} /\
  fs w2 = fs w1 /\
  new_events w1 w2
  = [EvGet (PStr "http://i.redd.it/x.jpg");
     EvLog "Error in core download: unreachable";
     EvIncrement true].
Proof. cbv zeta. repeat split; vm_compute; reflexivity. Qed.

(** ** Concurrent workers *)

(** What one [download_post] does to the counter, which is what the
    steps of [Pool] say: it reads it, and after a read below the
    maximum it adds one to it or leaves it. *)
Lemma download_post_counter env cls post_details w :
  let w' := snd (download_post env cls post_details w) in
  count w' = count w \/ (count w' = count w + 1 /\ count w < max_posts_download cls).
Proof.
  cbv zeta.
  destruct (get_counter_fault env (count w)) as [e|] eqn:Hf.
  { rewrite (download_post_counter_fault _ _ _ _ _ Hf). now left. }
  destruct (Z_lt_le_dec (count w) (max_posts_download cls)) as [Hlt | Hge].
  2:{ rewrite (download_post_skip _ _ _ _ Hf Hge). now left. }
  destruct (is_none (dict_get "domain" post_details)
            || is_none (dict_get "url" post_details)) eqn:Hm.
  { rewrite (download_post_malformed env cls post_details w (conj Hf Hlt) Hm).
    now left. }
  apply orb_false_elim in Hm.
  destruct (download_total env (helper_of cls post_details) w) as (b & w1 & E).
  pose proof (download_quiet env (helper_of cls post_details) w) as [Hc _].
  rewrite E in Hc. simpl in Hc.
  rewrite (download_post_reports env cls post_details w b w1 (conj Hf Hlt) Hm E).
  destruct (increment_fault env b (count w1)); simpl; [now left |].
  destruct b; [right; split; [congruence | exact Hlt] | now left].
Qed.

Module PoolFacts.

Import Pool.

Lemma in_flight_nonneg phs : 0 <= in_flight phs.
Proof. induction phs as [|[] phs IH]; simpl; lia. Qed.

Lemma in_flight_le_length phs : in_flight phs <= Z.of_nat (length phs).
Proof. induction phs as [|[] phs IH]; simpl length; simpl in_flight; lia. Qed.

Lemma in_flight_replicate n : in_flight (replicate n Idle) = 0.
Proof. induction n as [|n IH]; simpl; auto. Qed.

(** A worker that passes the quota check. *)
Lemma in_flight_enter phs i :
  phs !! i = Some Idle -> in_flight (<[i := InFlight]> phs) = in_flight phs + 1.
Proof.
  revert i. induction phs as [|ph phs IH]; intros [|i] H; try discriminate.
  - injection H as ->. simpl. lia.
  - simpl in H. simpl. specialize (IH i H). destruct ph; lia.
Qed.

(** A worker whose call ends. *)
Lemma in_flight_leave phs i :
  phs !! i = Some InFlight -> in_flight (<[i := Idle]> phs) = in_flight phs - 1.
Proof.
  revert i. induction phs as [|ph phs IH]; intros [|i] H; try discriminate.
  - injection H as ->. simpl. lia.
  - simpl in H. simpl. specialize (IH i H). destruct ph; lia.
Qed.

(** A worker that is idle leaves room for one more in flight. *)
Lemma in_flight_room phs i :
  phs !! i = Some Idle -> in_flight phs + 1 <= Z.of_nat (length phs).
Proof.
  intros H. rewrite <- (in_flight_enter phs i H).
  rewrite <- (length_insert phs i InFlight). apply in_flight_le_length.
Qed.

Lemma step_keeps_workers maximum s s' :
  step maximum s s' -> length (phases s') = length (phases s).
Proof. intros []; simpl; auto using length_insert. Qed.

Lemma step_keeps_soft_cap maximum s s' :
  step maximum s s' -> soft_cap maximum s -> soft_cap maximum s'.
Proof.
  unfold soft_cap.
  intros [s0 i Hi Hge | s0 i Hi Hlt | s0 i b Hi | s0 i Hi]; simpl; intros H.
  - exact H.
  - rewrite length_insert, (in_flight_enter _ _ Hi).
    pose proof (in_flight_room _ _ Hi). lia.
  - rewrite length_insert, (in_flight_leave _ _ Hi). destruct b; lia.
  - rewrite length_insert, (in_flight_leave _ _ Hi). lia.
Qed.

Lemma reachable_soft_cap maximum s0 s :
  reachable maximum s0 s ->
  soft_cap maximum s0 ->
  soft_cap maximum s /\ length (phases s) = length (phases s0).
Proof.
  induction 1 as [|s s' Hr IH Hs]; intros H0; [now split |].
  destruct (IH H0) as [Hc Hl]. split.
  - eapply step_keeps_soft_cap; eauto.
  - rewrite <- Hl. eapply step_keeps_workers; eauto.
Qed.

End PoolFacts.

(** C9.  With [n] workers that start idle and a counter that starts at
    no more than the maximum plus [n - 1] (at zero, say, under a
    maximum that is not negative, with one worker at least), the
    counter never exceeds the maximum by more than [n - 1], however
    the quota checks and the increments of the workers interleave; the
    counter and the workers in flight together stay within that bound. *)
Theorem C9_counter_exceeds_maximum_by_less_than_workers maximum n c s :
  c <= maximum + Z.of_nat n - 1 ->
  Pool.reachable maximum (Pool.start c n) s ->
  Pool.shared s <= maximum + Z.of_nat n - 1 /\
  Pool.shared s + Pool.in_flight (Pool.phases s) <= maximum + Z.of_nat n - 1.
Proof.
  intros Hc Hr.
  destruct (PoolFacts.reachable_soft_cap maximum _ s Hr) as [Hs Hl].
  - unfold Pool.soft_cap, Pool.start. simpl.
    rewrite PoolFacts.in_flight_replicate, length_replicate. lia.
  - unfold Pool.soft_cap in Hs. rewrite Hl in Hs. simpl in Hs.
    rewrite length_replicate in Hs.
    pose proof (PoolFacts.in_flight_nonneg (Pool.phases s)). lia.
Qed.

(** Two workers under a maximum of one: both pass the quota check
    before either records its success, and the counter ends at two. *)
Lemma C9_two_workers_witness :
  Pool.reachable 1 (Pool.start 0 2) (Pool.mkState 2 [Pool.Idle; Pool.Idle]) /\
  Pool.shared (Pool.mkState 2 [Pool.Idle; Pool.Idle]) <= 1 + Z.of_nat 2 - 1.
Proof.
  assert (Hr : Pool.reachable 1 (Pool.start 0 2)
                 (Pool.mkState 2 [Pool.Idle; Pool.Idle])).
  { eapply Pool.reach_step with (s := Pool.mkState 1 [Pool.Idle; Pool.InFlight]).
    - eapply Pool.reach_step with (s := Pool.mkState 0 [Pool.InFlight; Pool.InFlight]).
      + eapply Pool.reach_step with (s := Pool.mkState 0 [Pool.InFlight; Pool.Idle]).
        * eapply Pool.reach_step; [apply Pool.reach_start |].
          apply (Pool.step_pass 1 (Pool.start 0 2) 0%nat); [reflexivity | simpl; lia].
        * apply (Pool.step_pass 1 (Pool.mkState 0 [Pool.InFlight; Pool.Idle]) 1%nat);
            [reflexivity | simpl; lia].
      + apply (Pool.step_record 1 (Pool.mkState 0 [Pool.InFlight; Pool.InFlight])
                 0%nat true). reflexivity.
    - apply (Pool.step_record 1 (Pool.mkState 1 [Pool.Idle; Pool.InFlight])
               1%nat true). reflexivity. }
  split; [exact Hr |].
  apply (C9_counter_exceeds_maximum_by_less_than_workers 1 2 0 _);
    [simpl; lia | exact Hr].
Defined.

(** * Further properties of the code *)

(** ** What a fetch leaves on the disk *)

(** X1.  A transfer that goes through: when the file is not there, the
    request is answered with a success status, the stream ends without
    an error and the disk takes the writes, [_core_download] makes
    that one request and leaves at the destination exactly the bytes
    of the chunks, in the order they came (a response without bytes
    leaves an empty file); nothing is logged and nothing else
    changes. *)
Theorem X1_complete_transfer_writes_the_chunks env url path r w :
  fs w !! path = None ->
  requests_get env url = Ok r ->
  status_error r = None ->
  stream_error r = None ->
  disk_ok env path ->
  _core_download env url path w
  = (Ok tt,
     set_fs (<[path := concat (iter_content r)]> (fs w)) (emit (EvGet url) w)).
Proof.
  intros Hf Hr Hs He Hd.
  rewrite (core_download_streams env url path r w Hf Hr Hs Hd).
  unfold try_except.
  rewrite (write_chunks_content env path _ _ _ [] (proj2 Hd))
    by apply lookup_insert_eq.
  rewrite He. cbn [fs set_fs app]. now rewrite insert_insert_eq.
Qed.

Lemma X1_complete_transfer_witness :
  _core_download
    (Sample.env_of Sample.no_lookup
       (fun _ => Ok (mkResponse None [[Byte.x61]; []; [Byte.x62; Byte.x63]] None)))
    (PStr "http://h/f") "dl/f" Sample.w0
  = (Ok tt,
     mkWorld {[ "dl/f" := [Byte.x61; Byte.x62; Byte.x63] ]} 0
       [EvGet (PStr "http://h/f")]).
Proof.
  rewrite (X1_complete_transfer_writes_the_chunks
             (Sample.env_of Sample.no_lookup
                (fun _ => Ok (mkResponse None [[Byte.x61]; []; [Byte.x62; Byte.x63]] None)))
             (PStr "http://h/f") "dl/f"
             (mkResponse None [[Byte.x61]; []; [Byte.x62; Byte.x63]] None)
             Sample.w0 eq_refl eq_refl eq_refl eq_refl
             (conj eq_refl (fun _ _ => eq_refl))).
  vm_compute. reflexivity.
Defined.

(** X2.  A transfer that breaks on the way: when the stream raises
    after some chunks, [_core_download] logs the exception, returns as
    usual, and leaves at the destination the bytes written so far; it
    does not remove the truncated file. *)
Theorem X2_broken_stream_leaves_partial_file env url path r e w :
  fs w !! path = None ->
  requests_get env url = Ok r ->
  status_error r = None ->
  stream_error r = Some e ->
  disk_ok env path ->
  _core_download env url path w
  = (Ok tt,
     emit (EvLog ("Error in core download: " ++ exn_msg e))
       (set_fs (<[path := concat (iter_content r)]> (fs w)) (emit (EvGet url) w))).
Proof.
  intros Hf Hr Hs He Hd.
  rewrite (core_download_streams env url path r w Hf Hr Hs Hd).
  unfold try_except.
  rewrite (write_chunks_content env path _ _ _ [] (proj2 Hd))
    by apply lookup_insert_eq.
  rewrite He. cbn [fs set_fs app]. now rewrite insert_insert_eq.
Qed.

Lemma X2_broken_stream_witness :
  fs (snd (_core_download (Sample.env_of Sample.no_lookup Sample.net_broken)
             (PStr "http://h/f") "dl/f" Sample.w0))
  = {[ "dl/f" := [Byte.x2a] ]}.
Proof.
  rewrite (X2_broken_stream_leaves_partial_file
             (Sample.env_of Sample.no_lookup Sample.net_broken)
             (PStr "http://h/f") "dl/f"
             (mkResponse None [[Byte.x2a]]
                (Some (Exn "ChunkedEncodingError" "connection broken")))
             (Exn "ChunkedEncodingError" "connection broken")
             Sample.w0 eq_refl eq_refl eq_refl eq_refl
             (conj eq_refl (fun _ _ => eq_refl))).
  vm_compute. reflexivity.
Defined.

(** X3.  A transfer that fails before the file is opened: when
    [requests.get] raises, or the status is a failure, or [open]
    raises, [_core_download] makes its one request, logs the exception
    and creates no file: the files are as before. *)
Theorem X3_early_failure_creates_no_file env url path e w :
  fs w !! path = None ->
  requests_get env url = Raise e \/
  (exists r, requests_get env url = Ok r /\
     (status_error r = Some e \/
      status_error r = None /\ open_fault env path = Some e)) ->
  _core_download env url path w
  = (Ok tt, emit (EvLog ("Error in core download: " ++ exn_msg e)) (emit (EvGet url) w)) /\
  fs (snd (_core_download env url path w)) = fs w.
Proof.
  intros Hf H.
  assert (E : _core_download env url path w
              = (Ok tt, emit (EvLog ("Error in core download: " ++ exn_msg e))
                          (emit (EvGet url) w))).
  { destruct H as [Hr | (r & Hr & [Hs | [Hs Ho]])].
    - now apply core_download_request_raises.
    - now apply core_download_status_raises with r.
    - unfold _core_download, try_except, bind, path_exists, http_get, open_wb.
      rewrite bool_decide_eq_false_2 by (rewrite Hf; intros [? ?]; discriminate).
      now rewrite Hr, Hs, Ho. }
  rewrite E. now split.
Qed.

Lemma X3_early_failure_witness :
  fs (snd (_core_download (Sample.env_of Sample.no_lookup Sample.net_404)
             (PStr "http://h/f") "dl/f" Sample.w0))
  = fs Sample.w0.
Proof.
  apply (X3_early_failure_creates_no_file
           (Sample.env_of Sample.no_lookup Sample.net_404)
           (PStr "http://h/f") "dl/f" (Exn "HTTPError" "404 Client Error")
           Sample.w0 eq_refl).
  right. eexists. split; [reflexivity |]. left. reflexivity.
Defined.

(** X4.  Whatever the network and the disk do, [_core_download] never
    touches a file that exists (with bytes or without), changes no
    file but its destination, leaves the counter alone and does not
    call [increment_counter]. *)
Theorem X4_fetch_never_overwrites env url path w :
  let w' := snd (_core_download env url path w) in
  keeps_all w w' /\
  only_at path w w' /\
  count w' = count w /\
  incrs_of (trace w') = incrs_of (trace w).
Proof.
  cbv zeta. split; [| split].
  - intros q c Hq.
    destruct (fs w !! path) as [c'|] eqn:E.
    + rewrite core_download_exists by (rewrite E; eauto). exact Hq.
    + rewrite (core_download_only_at env url path w q); [exact Hq |].
      intros ->. congruence.
  - apply core_download_only_at.
  - apply core_download_quiet.
Qed.

(** ** The host handlers *)

Section Handlers.

Variable env : Env.

(** The handlers that look the URL up first, with their argument
    [domain_type] and the prefix of their log line. *)
Lemma lookup_handler_none self domain_type pre w :
  get_gfycat_redgif_url env (_media_url self) domain_type = Ok PNone ->
  try_except
    (let* u := lookup_url env (_media_url self) domain_type in
     if negb (is_none u) then _download_to_local_file env self u else ret None)
    (fun e => do* logging_error pre e in ret None) w
  = (Ok None, emit (EvLookup (_media_url self) domain_type) w).
Proof.
  intros H. unfold try_except, bind at 1, lookup_url. now rewrite H.
Qed.

Lemma lookup_handler_raises self domain_type pre e w :
  get_gfycat_redgif_url env (_media_url self) domain_type = Raise e ->
  try_except
    (let* u := lookup_url env (_media_url self) domain_type in
     if negb (is_none u) then _download_to_local_file env self u else ret None)
    (fun e => do* logging_error pre e in ret None) w
  = (Ok None,
     emit (EvLog (pre ++ exn_msg e)) (emit (EvLookup (_media_url self) domain_type) w)).
Proof.
  intros H. unfold try_except, bind at 1, lookup_url. now rewrite H.
Qed.

Lemma lookup_handler_fetches self domain_type pre u name w :
  get_gfycat_redgif_url env (_media_url self) domain_type = Ok u ->
  is_none u = false ->
  construct_local_filename env (_title self) (ByUrl u) (_local_download_dir self)
  = Ok name ->
  fs w !! name = None ->
  let r :=
    try_except
      (let* u := lookup_url env (_media_url self) domain_type in
       if negb (is_none u) then _download_to_local_file env self u else ret None)
      (fun e => do* logging_error pre e in ret None) w in
  fst r = Ok (Some name) /\
  gets_of (trace (snd r)) = (gets_of (trace w) ++ [u])%list.
Proof.
  intros H Hu Hn Hf. cbv zeta.
  set (w1 := emit (EvLookup (_media_url self) domain_type) w).
  assert (E : (let* u := lookup_url env (_media_url self) domain_type in
               if negb (is_none u) then _download_to_local_file env self u
               else ret None) w
              = (Ok (Some name), snd (_core_download env u name w1))).
  { unfold bind at 1, lookup_url. rewrite H, Hu. cbn [negb].
    now apply download_to_local_file_ok. }
  rewrite (try_ok _ _ _ _ _ E). split; [reflexivity |]. cbn [snd].
  rewrite core_download_absent by exact Hf.
  unfold w1. simpl. rewrite gets_of_app. simpl. now rewrite app_nil_r.
Qed.

End Handlers.

(** X5.  [ireddit] downloads from the media URL as it stands: with a
    file name to write to and no such file yet, it returns that name
    and the one request it makes is for the media URL itself, whatever
    that URL looks like. *)
Theorem X5_ireddit_requests_the_media_url env self name w :
  construct_local_filename env (_title self) (ByUrl (_media_url self))
    (_local_download_dir self) = Ok name ->
  fs w !! name = None ->
  fst (ireddit env self w) = Ok (Some name) /\
  gets_of (trace (snd (ireddit env self w)))
  = (gets_of (trace w) ++ [_media_url self])%list.
Proof.
  intros Hn Hf. unfold ireddit.
  rewrite (try_ok _ _ _ _ _ (download_to_local_file_ok env self _ name w Hn)).
  split; [reflexivity |]. now apply core_download_absent.
Qed.

Lemma X5_ireddit_witness :
  gets_of
    (trace (snd (ireddit (Sample.env_of Sample.no_lookup Sample.net_all)
                   (mkMediaDownloadHelper (PStr "i.redd.it")
                      (PStr "http://i.redd.it/a.gifv") (PStr "t") [] "dl")
                   Sample.w0)))
  = [PStr "http://i.redd.it/a.gifv"].
Proof.
  exact (proj2 (X5_ireddit_requests_the_media_url
                  (Sample.env_of Sample.no_lookup Sample.net_all)
                  (mkMediaDownloadHelper (PStr "i.redd.it")
                     (PStr "http://i.redd.it/a.gifv") (PStr "t") [] "dl")
                  "dl/t_http://i.redd.it/a.gifv" Sample.w0 eq_refl eq_refl)).
Defined.

(** X6.  [gfycat] and [redgifs] never download from the media URL: they
    look it up, with the domain type ['gfycat'] for the one and
    ['redgif'] for the other, and the only request they can make is
    for the URL the lookup returns.  When the lookup returns [None]
    they return [None] without a request and without a log line; when
    it raises they log the exception under their own name and return
    [None]. *)
Theorem X6_lookup_handlers_request_the_looked_up_url env self w :
  (get_gfycat_redgif_url env (_media_url self) "gfycat" = Ok PNone ->
   gfycat env self w = (Ok None, emit (EvLookup (_media_url self) "gfycat") w)) /\
  (get_gfycat_redgif_url env (_media_url self) "redgif" = Ok PNone ->
   redgifs env self w = (Ok None, emit (EvLookup (_media_url self) "redgif") w)) /\
  (forall e,
     get_gfycat_redgif_url env (_media_url self) "gfycat" = Raise e ->
     gfycat env self w
     = (Ok None,
        emit (EvLog ("Error downloading from gfycat: " ++ exn_msg e))
          (emit (EvLookup (_media_url self) "gfycat") w))) /\
  (forall e,
     get_gfycat_redgif_url env (_media_url self) "redgif" = Raise e ->
     redgifs env self w
     = (Ok None,
        emit (EvLog ("Error downloading from redgifs: " ++ exn_msg e))
          (emit (EvLookup (_media_url self) "redgif") w))) /\
  (forall u name,
     get_gfycat_redgif_url env (_media_url self) "gfycat" = Ok u ->
     is_none u = false ->
     construct_local_filename env (_title self) (ByUrl u) (_local_download_dir self)
     = Ok name ->
     fs w !! name = None ->
     fst (gfycat env self w) = Ok (Some name) /\
     gets_of (trace (snd (gfycat env self w))) = (gets_of (trace w) ++ [u])%list) /\
  (forall u name,
     get_gfycat_redgif_url env (_media_url self) "redgif" = Ok u ->
     is_none u = false ->
     construct_local_filename env (_title self) (ByUrl u) (_local_download_dir self)
     = Ok name ->
     fs w !! name = None ->
     fst (redgifs env self w) = Ok (Some name) /\
     gets_of (trace (snd (redgifs env self w))) = (gets_of (trace w) ++ [u])%list).
Proof.
  unfold gfycat, redgifs.
  repeat apply conj; intros.
  - now apply lookup_handler_none.
  - now apply lookup_handler_none.
  - now apply lookup_handler_raises.
  - now apply lookup_handler_raises.
  - now apply lookup_handler_fetches.
  - now apply lookup_handler_fetches.
Qed.

Lemma X6_lookup_handlers_witness :
  gets_of
    (trace (snd (redgifs
                   (Sample.env_of (fun _ _ => Ok (PStr "http://cdn/v.mp4")) Sample.net_all)
                   (mkMediaDownloadHelper (PStr "redgifs.com")
                      (PStr "http://redgifs.com/watch/abc") (PStr "t") [] "dl")
                   Sample.w0)))
  = [PStr "http://cdn/v.mp4"].
Proof.
  exact (proj2
           (proj2 (proj2 (proj2 (proj2 (proj2
              (X6_lookup_handlers_request_the_looked_up_url
                 (Sample.env_of (fun _ _ => Ok (PStr "http://cdn/v.mp4")) Sample.net_all)
                 (mkMediaDownloadHelper (PStr "redgifs.com")
                    (PStr "http://redgifs.com/watch/abc") (PStr "t") [] "dl")
                 Sample.w0)))))
              (PStr "http://cdn/v.mp4") "dl/t_http://cdn/v.mp4"
              eq_refl eq_refl eq_refl eq_refl)).
Defined.

(** ** What [download] and [download_post] never do *)

#[local] Instance keeps_all_preorder : PreOrder keeps_all.
Proof.
  split.
  - intros w path c H. exact H.
  - intros a b c H1 H2 path x Hx. eauto.
Qed.

Lemma requests_none w w' : no_get w w' -> requests_at_most 0 w w'.
Proof. intros H. exists []. now rewrite app_nil_r. Qed.

Lemma requests_more n m w w' :
  (n <= m)%nat -> requests_at_most n w w' -> requests_at_most m w w'.
Proof. intros Hle (us & E & Hl). exists us. split; [exact E | lia]. Qed.

Lemma requests_then n m w1 w2 w3 :
  requests_at_most n w1 w2 -> requests_at_most m w2 w3 ->
  requests_at_most (n + m) w1 w3.
Proof.
  intros (us & E1 & H1) (vs & E2 & H2). exists (us ++ vs)%list. split.
  - now rewrite E2, E1, app_assoc.
  - rewrite length_app. lia.
Qed.

Lemma requests_log n pre e w w' :
  requests_at_most n w w' ->
  requests_at_most n w (snd (logging_error pre e w')).
Proof.
  intros H. replace n with (n + 0)%nat by lia.
  eapply requests_then; [exact H |]. apply requests_none, log_no_get.
Qed.

(** A handler of [downloaders.py] adds a log line at most to what its
    body does. *)
Lemma requests_try {A} n (body : M (option A)) pre w :
  requests_at_most n w (snd (body w)) ->
  requests_at_most n w
    (snd (try_except body (fun e => do* logging_error pre e in ret None) w)).
Proof.
  intros H. unfold try_except.
  destruct (body w) as [[r|e] w1]; [exact H |].
  cbn [snd] in H. now apply (requests_log n pre e) in H.
Qed.

Section Bounds.

Variable env : Env.

Lemma core_download_requests url path w :
  requests_at_most 1 w (snd (_core_download env url path w)).
Proof.
  destruct (fs w !! path) as [c|] eqn:E.
  - rewrite core_download_exists by (rewrite E; eauto).
    apply (requests_more 0); [lia |]. now apply requests_none.
  - exists [url]. split; [now apply core_download_absent | simpl; lia].
Qed.

Lemma download_to_local_file_requests self url w :
  requests_at_most 1 w (snd (_download_to_local_file env self url w)).
Proof.
  destruct (construct_local_filename env (_title self) (ByUrl url)
              (_local_download_dir self)) as [name|e] eqn:E.
  - rewrite (download_to_local_file_ok env self url name w E).
    apply core_download_requests.
  - rewrite (download_to_local_file_raise env self url e w E).
    apply (requests_more 0); [lia |]. now apply requests_none.
Qed.

Lemma lookup_handler_requests self domain_type pre w :
  requests_at_most 1 w
    (snd (try_except
            (let* u := lookup_url env (_media_url self) domain_type in
             if negb (is_none u) then _download_to_local_file env self u
             else ret None)
            (fun e => do* logging_error pre e in ret None) w)).
Proof.
  apply requests_try. unfold bind, lookup_url.
  set (w1 := emit (EvLookup (_media_url self) domain_type) w).
  assert (H0 : requests_at_most 0 w w1).
  { apply requests_none. unfold no_get, w1. simpl. rewrite gets_of_app.
    simpl. now rewrite app_nil_r. }
  destruct (get_gfycat_redgif_url env (_media_url self) domain_type) as [u|e].
  - destruct (negb (is_none u)).
    + apply (requests_then 0 1 w w1); [exact H0 |].
      apply download_to_local_file_requests.
    + apply (requests_more 0); [lia | exact H0].
  - apply (requests_more 0); [lia | exact H0].
Qed.

Lemma imgur_requests self w : requests_at_most 1 w (snd (imgur env self w)).
Proof.
  unfold imgur. apply requests_try.
  assert (H0 : requests_at_most 1 w w)
    by (apply (requests_more 0); [lia | now apply requests_none]).
  destruct (py_contains_str "gifv" (_media_url self)) as [[|]|e];
    rewrite ?bind_lift_ok; [| | exact H0].
  - destruct (py_replace ".gifv" ".mp4" (_media_url self)) as [u|e];
      rewrite ?bind_lift_ok; [apply download_to_local_file_requests | exact H0].
  - rewrite bind_ret. apply download_to_local_file_requests.
Qed.

Lemma handler_requests domain handler self w :
  domain_mappings env domain = Ok handler ->
  requests_at_most 1 w (snd (handler self w)).
Proof.
  unfold domain_mappings. intros H.
  assert (Hn : requests_at_most 1 w (snd (do_nothing self w)))
    by (apply (requests_more 0); [lia | now apply requests_none]).
  destruct domain; try discriminate; try (injection H as <-; exact Hn).
  repeat match type of H with
         | (if ?c then _ else _) = _ => destruct c
         end; injection H as <-; try exact Hn.
  - apply lookup_handler_requests.
  - apply imgur_requests.
  - unfold ireddit. apply requests_try, download_to_local_file_requests.
  - apply lookup_handler_requests.
Qed.

Lemma primary_stage_requests self w :
  requests_at_most 1 w (snd (primary_stage env self w)).
Proof.
  unfold primary_stage.
  destruct (domain_mappings env (_domain self)) as [handler|e] eqn:E.
  2:{ apply (requests_more 0); [lia | now apply requests_none]. }
  rewrite bind_lift_ok. unfold bind at 1.
  pose proof (handler_requests _ _ self w E) as Hh.
  destruct (handler self w) as [[[name|]|e] w1]; cbn [snd] in *; try exact Hh.
  replace 1%nat with (1 + 0)%nat by lia.
  apply (requests_then 1 0 w w1); [exact Hh |]. apply requests_none.
  pose proof (check_no_get env name w1) as Hc. unfold bind.
  now destruct (check_if_empty_and_delete_file env name w1) as [[b|e] w2].
Qed.

Lemma fallback_stage_requests self w :
  requests_at_most 1 w (snd (fallback_stage env self w)).
Proof.
  destruct (fallback_stage_frame env self w) as [Hg _].
  exists (fallback_gets env self w). split; [exact Hg |].
  unfold fallback_gets.
  destruct (dict_has "preview" (_post_details self)); [| simpl; lia].
  destruct (preview_url (_post_details self)); [| simpl; lia].
  destruct (preview_name env self); [| simpl; lia].
  destruct (fs w !! _); simpl; lia.
Qed.

Lemma download_requests self w :
  requests_at_most 2 w (snd (download env self w)).
Proof.
  pose proof (primary_stage_requests self w) as Hp.
  destruct (primary_stage env self w) as [[[|]|e] w1] eqn:Ep; cbn [snd] in Hp.
  - rewrite (download_primary_ok env self w w1 Ep).
    apply (requests_more 1); [lia | exact Hp].
  - rewrite (download_fallback env self w w1 Ep).
    pose proof (fallback_stage_requests self w1) as Hf.
    destruct (fallback_stage env self w1) as [[b|e] w2]; cbn [snd] in *.
    + apply (requests_then 1 1 w w1 w2 Hp Hf).
    + apply (requests_log 2 "Error downloading media: " e).
      apply (requests_then 1 1 w w1 w2 Hp Hf).
  - rewrite (download_primary_raises env self w e w1 Ep).
    apply (requests_log 2 "Error downloading media: " e).
    apply (requests_more 1); [lia | exact Hp].
Qed.

Lemma fallback_stage_keeps self : preserves keeps (fallback_stage env self).
Proof.
  unfold fallback_stage.
  pose proof (naive_preview_keeps env self). pose proof (check_keeps env). pres.
Qed.

Lemma download_keeps self : preserves keeps (download env self).
Proof.
  intros w. pose proof (primary_stage_keeps env self w) as Hp.
  destruct (primary_stage env self w) as [[[|]|e] w1] eqn:Ep; cbn [snd] in Hp.
  - now rewrite (download_primary_ok env self w w1 Ep).
  - rewrite (download_fallback env self w w1 Ep).
    pose proof (fallback_stage_keeps self w1) as Hf.
    destruct (fallback_stage env self w1) as [[b|e] w2]; cbn [snd] in *;
      (etransitivity; [exact Hp | exact Hf]).
  - now rewrite (download_primary_raises env self w e w1 Ep).
Qed.

End Bounds.

Section PostCases.

Variable env : Env.
Variable cls : MediaDownloader.

(** The ways through [download_post]: it stops before [download] (on a
    counter it cannot read, on the quota, on a missing field), or it
    runs [download] and reports. *)
Lemma download_post_cases post_details w :
  (snd (download_post env cls post_details w) = w \/
   exists e,
     snd (download_post env cls post_details w)
     = emit (EvLog ("Error downloading post: " ++ exn_msg e)) w)
  \/
  (under_quota env cls w /\ well_formed post_details /\
   exists b w1,
     download env (helper_of cls post_details) w = (Ok b, w1) /\
     snd (download_post env cls post_details w)
     = match increment_fault env b (count w1) with
       | Some e =>
           emit (EvLog ("Error downloading post: " ++ exn_msg e))
             (emit (EvIncrement b) w1)
       | None =>
           set_count (if b then count w1 + 1 else count w1) (emit (EvIncrement b) w1)
       end).
Proof.
  destruct (get_counter_fault env (count w)) as [e|] eqn:Hf.
  { left. right. exists e. now rewrite (download_post_counter_fault _ _ _ _ _ Hf). }
  destruct (Z_lt_le_dec (count w) (max_posts_download cls)) as [Hlt | Hge].
  2:{ left. left. now rewrite (download_post_skip _ _ _ _ Hf Hge). }
  destruct (is_none (dict_get "domain" post_details)
            || is_none (dict_get "url" post_details)) eqn:Hm.
  { left. left.
    now rewrite (download_post_malformed env cls post_details w (conj Hf Hlt) Hm). }
  apply orb_false_elim in Hm. right.
  split; [now split |]. split; [exact Hm |].
  destruct (download_total env (helper_of cls post_details) w) as (b & w1 & E).
  exists b, w1. split; [exact E |].
  now rewrite (download_post_reports env cls post_details w b w1 (conj Hf Hlt) Hm E).
Qed.

End PostCases.

(** X7.  Neither [download] nor [download_post] ever removes or alters
    a file that holds bytes: whatever the network, the disk and the
    metadata do, a file that was there with bytes before the call is
    there with the same bytes after it.  (The only file ever deleted
    is one of zero bytes, by the validator.) *)
Theorem X7_files_with_bytes_are_never_lost env cls post_details w path c :
  fs w !! path = Some c ->
  c <> [] ->
  fs (snd (download env (helper_of cls post_details) w)) !! path = Some c /\
  fs (snd (download_post env cls post_details w)) !! path = Some c.
Proof.
  intros Hf Hc.
  pose proof (download_keeps env (helper_of cls post_details) w path c Hf Hc) as Hd.
  split; [exact Hd |].
  destruct (download_post_cases env cls post_details w)
    as [[-> | [e ->]] | (_ & _ & b & w1 & E & ->)]; try exact Hf.
  rewrite E in Hd. cbn [snd] in Hd.
  now destruct (increment_fault env b (count w1)).
Qed.

Lemma X7_files_with_bytes_witness :
  fs (snd (download_post (Sample.env_of Sample.no_lookup Sample.net_all) Sample.cls
             (Sample.post "i.redd.it" "http://i.redd.it/x.jpg" "cat" [])
             (mkWorld {[ "dl/old.jpg" := [Byte.x01] ]} 0 [])))
  !! "dl/old.jpg"
  = Some [Byte.x01].
Proof.
  apply (X7_files_with_bytes_are_never_lost
           (Sample.env_of Sample.no_lookup Sample.net_all) Sample.cls
           (Sample.post "i.redd.it" "http://i.redd.it/x.jpg" "cat" [])
           (mkWorld {[ "dl/old.jpg" := [Byte.x01] ]} 0 [])
           "dl/old.jpg" [Byte.x01]); [reflexivity | discriminate].
Defined.

(** X8.  One [download_post] makes at most two requests, one for the
    primary URL and one for the preview, whatever happens; [download]
    likewise. *)
Theorem X8_at_most_two_requests_per_post env cls post_details w :
  requests_at_most 2 w (snd (download env (helper_of cls post_details) w)) /\
  requests_at_most 2 w (snd (download_post env cls post_details w)).
Proof.
  pose proof (download_requests env (helper_of cls post_details) w) as Hd.
  split; [exact Hd |].
  assert (H0 : requests_at_most 2 w w)
    by (apply (requests_more 0); [lia | now apply requests_none]).
  destruct (download_post_cases env cls post_details w)
    as [[-> | [e ->]] | (_ & _ & b & w1 & E & ->)].
  - exact H0.
  - now apply (requests_log 2 "Error downloading post: " e) in H0.
  - rewrite E in Hd. cbn [snd] in Hd.
    destruct Hd as (us & Hg & Hl). exists us. split; [| exact Hl].
    destruct (increment_fault env b (count w1)); simpl;
      rewrite ?gets_of_app; simpl; rewrite ?app_nil_r; exact Hg.
Qed.

(** X9.  One [download_post] calls [increment_counter] at most once,
    never lowers the counter and raises it by one at most; it raises
    it only after reading it below the maximum, and a call that finds
    the counter at the maximum or above leaves it as it is. *)
Theorem X9_counter_moves_by_at_most_one env cls post_details w :
  let w' := snd (download_post env cls post_details w) in
  (incrs_of (trace w') = incrs_of (trace w) \/
   exists b, incrs_of (trace w') = (incrs_of (trace w) ++ [b])%list) /\
  (count w' = count w \/
   count w' = count w + 1 /\ count w < max_posts_download cls) /\
  (max_posts_download cls <= count w -> count w' = count w).
Proof.
  cbv zeta.
  assert (H : (incrs_of (trace (snd (download_post env cls post_details w)))
               = incrs_of (trace w) \/
               exists b, incrs_of (trace (snd (download_post env cls post_details w)))
                         = (incrs_of (trace w) ++ [b])%list) /\
              (count (snd (download_post env cls post_details w)) = count w \/
               count (snd (download_post env cls post_details w)) = count w + 1 /\
               count w < max_posts_download cls)).
  { destruct (download_post_cases env cls post_details w)
      as [[-> | [e ->]] | ([_ Hlt] & _ & b & w1 & E & ->)].
    - split; now left.
    - split; left; [| reflexivity].
      simpl. rewrite incrs_of_app. simpl. now rewrite app_nil_r.
    - pose proof (download_quiet env (helper_of cls post_details) w) as [Hc Hi].
      rewrite E in Hc, Hi. cbn [snd] in Hc, Hi. split.
      + right. exists b.
        destruct (increment_fault env b (count w1)); simpl;
          rewrite ?incrs_of_app; simpl; rewrite ?app_nil_r; now rewrite Hi.
      + destruct (increment_fault env b (count w1)); simpl; [now left |].
        destruct b; [right; split; [congruence | exact Hlt] | now left]. }
  destruct H as [H1 H2]. repeat split; auto.
  intros Hge. destruct H2 as [H2 | [_ Hlt]]; [exact H2 | lia].
Qed.

Lemma X9_counter_witness :
  count (snd (download_post (Sample.env_of Sample.no_lookup Sample.net_all) Sample.cls
                (Sample.post "i.redd.it" "http://i.redd.it/x.jpg" "cat" [])
                (mkWorld ∅ 7 [])))
  = 7.
Proof.
  apply (X9_counter_moves_by_at_most_one
           (Sample.env_of Sample.no_lookup Sample.net_all) Sample.cls
           (Sample.post "i.redd.it" "http://i.redd.it/x.jpg" "cat" [])
           (mkWorld ∅ 7 [])).
  simpl. lia.
Defined.

(** ** Edges of [download] *)

(** X10.  A domain that cannot be a dict key (a list or a dict) makes
    the lookup in [domain_mappings] raise [TypeError] inside the [try]
    of [download]: [download] logs it and returns [False] at once.
    Nothing is requested and the preview is not tried, even when the
    post has one. *)
Theorem X10_unhashable_domain_skips_the_fallback env self w :
  hashable (_domain self) = false ->
  exists e,
    domain_mappings env (_domain self) = Raise e /\
    exn_class e = "TypeError" /\
    download env self w
    = (Ok false, emit (EvLog ("Error downloading media: " ++ exn_msg e)) w).
Proof.
  intros H. unfold download, try_except, download_body.
  destruct (_domain self); try discriminate; eexists;
    (split; [reflexivity |]); split; reflexivity.
Qed.

Lemma X10_unhashable_domain_witness :
  download (Sample.env_of Sample.no_lookup Sample.net_all)
    (mkMediaDownloadHelper (PDict []) (PStr "http://x") (PStr "t")
       [("preview", Sample.preview_of "http://p")] "dl")
    Sample.w0
  = (Ok false,
     mkWorld ∅ 0 [EvLog "Error downloading media: unhashable type: 'dict'"]).
Proof.
  destruct (X10_unhashable_domain_skips_the_fallback
              (Sample.env_of Sample.no_lookup Sample.net_all)
              (mkMediaDownloadHelper (PDict []) (PStr "http://x") (PStr "t")
                 [("preview", Sample.preview_of "http://p")] "dl")
              Sample.w0 eq_refl) as (e & Hd & _ & E).
  injection Hd as <-. exact E.
Defined.

(** X11.  The only exceptions that reach the [except] of [download]
    are the [TypeError] of a domain that cannot be a dict key and the
    exceptions of [check_if_empty_and_delete_file]: the handlers and
    the preview download catch their own, and the closing [or] never
    reads [naive_download_successful] when it was not assigned. *)
Theorem X11_what_reaches_the_except_of_download env self w e w' :
  download_body env self w = (Raise e, w') ->
  (domain_mappings env (_domain self) = Raise e /\ w' = w) \/
  (exists name w1, check_if_empty_and_delete_file env name w1 = (Raise e, w')).
Proof.
  unfold download_body.
  destruct (domain_mappings env (_domain self)) as [handler|e0] eqn:Ed.
  2:{ rewrite bind_lift_raise. intros [= <- <-]. now left. }
  rewrite bind_lift_ok. intros H. right. revert H.
  destruct (handler_total env _ _ self Ed w) as (r & w1 & Eh).
  unfold bind at 1. rewrite Eh.
  assert (Hfb : forall w2,
    (let* naive_download_successful :=
       (let* naive_local_filename := _attempt_naive_preview_download env self in
        match naive_local_filename with
        | Some name =>
            let* naive_is_empty := check_if_empty_and_delete_file env name in
            ret (Some (if naive_is_empty then false else true))
        | None => ret (Some false)
        end) in
     lift (py_or false naive_download_successful)) w2 = (Raise e, w') ->
    exists name w1, check_if_empty_and_delete_file env name w1 = (Raise e, w')).
  { intros w2.
    destruct (naive_preview_total env self w2) as (r2 & w3 & En).
    unfold bind at 1 2. rewrite En.
    destruct r2 as [n|]; [| discriminate].
    unfold bind at 1.
    destruct (check_if_empty_and_delete_file env n w3) as [[b|e1] w4] eqn:Ec;
      [destruct b; discriminate |].
    intros [= <- <-]. eauto. }
  destruct r as [name|].
  - unfold bind at 1 2.
    destruct (check_if_empty_and_delete_file env name w1) as [[b|e1] w2] eqn:Ec.
    + destruct b; cbn [ret negb]; [apply Hfb | discriminate].
    + intros [= <- <-]. eauto.
  - rewrite bind_ret. cbn [negb]. apply Hfb.
Qed.

Lemma X11_what_reaches_witness :
  domain_mappings (Sample.env_of Sample.no_lookup Sample.net_all) (PList [])
  = Raise (Exn "TypeError" "unhashable type: 'list'") /\
  Sample.w0 = Sample.w0
  \/
  exists name w1,
    check_if_empty_and_delete_file (Sample.env_of Sample.no_lookup Sample.net_all)
      name w1
    = (Raise (Exn "TypeError" "unhashable type: 'list'"), Sample.w0).
Proof.
  exact (X11_what_reaches_the_except_of_download
           (Sample.env_of Sample.no_lookup Sample.net_all)
           (mkMediaDownloadHelper (PList []) (PStr "http://x") (PStr "t") [] "dl")
           Sample.w0 (Exn "TypeError" "unhashable type: 'list'") Sample.w0 eq_refl).
Defined.

(** X12.  The name of the preview file is built from the title and the
    suffix only, not from the preview URL.  So when a file of that
    name is already there (left by another post of the same title,
    say), the preview download of a post with a preview URL makes no
    request and returns that name: the world is as before. *)
Theorem X12_preview_file_of_same_title_is_reused env self other u name w :
  _title other = _title self ->
  _local_download_dir other = _local_download_dir self ->
  preview_name env other = Ok name ->
  is_Some (fs w !! name) ->
  dict_has "preview" (_post_details self) = true ->
  preview_url (_post_details self) = Ok u ->
  _attempt_naive_preview_download env self w = (Ok (Some name), w).
Proof.
  intros Ht Hd Hn Hf Hp Hu.
  assert (Hn' : preview_name env self = Ok name).
  { unfold preview_name in *. now rewrite <- Ht, <- Hd. }
  rewrite (naive_preview_fetches env self u name w Hp Hu Hn').
  now rewrite core_download_exists.
Qed.

Lemma X12_preview_file_witness :
  _attempt_naive_preview_download (Sample.env_of Sample.no_lookup Sample.net_all)
    (mkMediaDownloadHelper (PStr "b.com") (PStr "http://b.com/2") (PStr "cat")
       [("preview", Sample.preview_of "http://p/2")] "dl")
    (mkWorld {[ "dl/cat.jpg" := [Byte.x01] ]} 0 [])
  = (Ok (Some "dl/cat.jpg"), mkWorld {[ "dl/cat.jpg" := [Byte.x01] ]} 0 []).
Proof.
  apply (X12_preview_file_of_same_title_is_reused
           (Sample.env_of Sample.no_lookup Sample.net_all)
           (mkMediaDownloadHelper (PStr "b.com") (PStr "http://b.com/2") (PStr "cat")
              [("preview", Sample.preview_of "http://p/2")] "dl")
           (mkMediaDownloadHelper (PStr "a.com") (PStr "http://a.com/1") (PStr "cat")
              [("preview", Sample.preview_of "http://p/1")] "dl")
           (PStr "http://p/2") "dl/cat.jpg"
           (mkWorld {[ "dl/cat.jpg" := [Byte.x01] ]} 0 []));
    try reflexivity.
  vm_compute. eauto.
Defined.

(** ** A post without a usable title *)

Section Unnameable.

Variable env : Env.
Variable self : MediaDownloadHelper.

(** No file name can be built for the title of [self]. *)
Hypothesis no_name :
  forall arg, exists e,
    construct_local_filename env (_title self) arg (_local_download_dir self)
    = Raise e.

Lemma unnameable_fetch u w :
  exists e, _download_to_local_file env self u w = (Raise e, w).
Proof.
  destruct (no_name (ByUrl u)) as [e He]. exists e.
  now apply download_to_local_file_raise.
Qed.

Lemma unnameable_fetch_same_files u :
  preserves same_files (_download_to_local_file env self u).
Proof. intros w. destruct (unnameable_fetch u w) as [e ->]. reflexivity. Qed.

Lemma unnameable_fetch_no_get u :
  preserves no_get (_download_to_local_file env self u).
Proof. intros w. destruct (unnameable_fetch u w) as [e ->]. reflexivity. Qed.

Lemma lookup_url_no_get u t : preserves no_get (lookup_url env u t).
Proof.
  intros w. unfold no_get. simpl. rewrite gets_of_app. simpl. apply app_nil_r.
Qed.

#[local] Hint Resolve unnameable_fetch_same_files unnameable_fetch_no_get
  lookup_url_no_get lookup_url_same_files : pres.

(** Every handler then returns [None], without a request and without
    a change to the files. *)
Lemma unnameable_handler domain handler w :
  domain_mappings env domain = Ok handler ->
  exists w1,
    handler self w = (Ok None, w1) /\ fs w1 = fs w /\
    gets_of (trace w1) = gets_of (trace w).
Proof.
  intros Hd.
  assert (Hs : preserves same_files (handler self) /\ preserves no_get (handler self)).
  { unfold domain_mappings in Hd.
    destruct domain; try discriminate;
      try (injection Hd as <-; split; unfold do_nothing; pres).
    repeat match type of Hd with
           | (if ?c then _ else _) = _ => destruct c
           end; injection Hd as <-;
      split; unfold gfycat, imgur, ireddit, redgifs, do_nothing; pres. }
  destruct Hs as [Hs Hg]. specialize (Hs w). specialize (Hg w).
  destruct (handler_total env _ _ self Hd w) as (r & w1 & E).
  rewrite E in Hs, Hg. cbn [snd] in Hs, Hg.
  exists w1. split; [| now split].
  destruct r as [name|]; [| exact E]. exfalso.
  assert (Hn : exists u, construct_local_filename env (_title self) (ByUrl u)
                           (_local_download_dir self) = Ok name).
  { clear Hs Hg. unfold domain_mappings in Hd.
    destruct domain; try discriminate; try (injection Hd as <-; discriminate).
    repeat match type of Hd with
           | (if ?c then _ else _) = _ => destruct c
           end; injection Hd as <-; try discriminate;
      apply try_some_inv in E; revert E.
    - unfold bind at 1, lookup_url.
      destruct (get_gfycat_redgif_url env (_media_url self) "gfycat") as [u|e];
        [| discriminate].
      destruct (negb (is_none u)); [| discriminate].
      intros E. apply download_to_local_file_inv in E. eauto.
    - destruct (py_contains_str "gifv" (_media_url self)) as [[|]|e];
        [| | discriminate]; rewrite ?bind_lift_ok.
      + destruct (py_replace ".gifv" ".mp4" (_media_url self)) as [u|e];
          [| discriminate].
        rewrite bind_lift_ok. intros E. apply download_to_local_file_inv in E. eauto.
      + rewrite bind_ret. intros E. apply download_to_local_file_inv in E. eauto.
    - intros E. apply download_to_local_file_inv in E. eauto.
    - unfold bind at 1, lookup_url.
      destruct (get_gfycat_redgif_url env (_media_url self) "redgif") as [u|e];
        [| discriminate].
      destruct (negb (is_none u)); [| discriminate].
      intros E. apply download_to_local_file_inv in E. eauto. }
  destruct Hn as [u Hn]. destruct (no_name (ByUrl u)) as [e He]. congruence.
Qed.

Lemma unnameable_download w :
  exists w1,
    download env self w = (Ok false, w1) /\ fs w1 = fs w /\
    gets_of (trace w1) = gets_of (trace w).
Proof.
  destruct (domain_mappings env (_domain self)) as [handler|e] eqn:Ed.
  - destruct (unnameable_handler _ _ w Ed) as (w1 & Eh & Hf & Hg).
    assert (Ep : primary_stage env self w = (Ok false, w1)).
    { unfold primary_stage. rewrite Ed, bind_lift_ok. unfold bind. now rewrite Eh. }
    destruct (naive_preview_gives_up env self w1) as (w2 & En & Hf2 & Hg2).
    { right. right. unfold preview_name. apply no_name. }
    assert (Ef : fallback_stage env self w1 = (Ok false, w2)).
    { unfold fallback_stage, bind. now rewrite En. }
    exists w2. rewrite (download_fallback env self w w1 Ep), Ef.
    repeat split; congruence.
  - assert (Ep : primary_stage env self w = (Raise e, w)).
    { unfold primary_stage. now rewrite Ed. }
    eexists. rewrite (download_primary_raises env self w e w Ep).
    split; [reflexivity |]. split; [reflexivity |].
    simpl. rewrite gets_of_app. simpl. now rewrite app_nil_r.
Qed.

End Unnameable.

(** X13.  A missing title does not make a post malformed for
    [download_post]: only [domain] and [url] are checked.  When no
    file name can be built for the title of a post (a title of [None],
    for a builder that needs a string), the post still goes through
    [download], which requests nothing and writes nothing, and it is
    reported to the counter as a failed attempt; the call returns
    [None], not [False]. *)
Theorem X13_unusable_title_is_a_failed_attempt env cls post_details w :
  well_formed post_details ->
  under_quota env cls w ->
  (forall arg, exists e,
     construct_local_filename env (dict_get "title" post_details) arg
       (local_download_dir cls) = Raise e) ->
  let r := download_post env cls post_details w in
  fst r = Ok PNone /\
  fs (snd r) = fs w /\
  gets_of (trace (snd r)) = gets_of (trace w) /\
  incrs_of (trace (snd r)) = (incrs_of (trace w) ++ [false])%list.
Proof.
  intros Hwf Hq Hn. cbv zeta.
  destruct (unnameable_download env (helper_of cls post_details) Hn w)
    as (w1 & E & Hf & Hg).
  destruct (download_post_reports_trace env cls post_details w false w1 Hq Hwf E)
    as (H1 & H2 & H3 & H4).
  repeat split; congruence.
Qed.

Lemma X13_unusable_title_witness :
  let p := [("domain", PStr "i.redd.it"); ("url", PStr "http://i.redd.it/x.jpg");
            ("preview", Sample.preview_of "http://p")] in
  dict_get "title" p = PNone /\
  incrs_of
    (trace (snd (download_post (Sample.env_of Sample.no_lookup Sample.net_all)
                   Sample.cls p Sample.w0)))
  = [false].
Proof.
  split; [reflexivity |].
  apply (X13_unusable_title_is_a_failed_attempt
           (Sample.env_of Sample.no_lookup Sample.net_all) Sample.cls
           [("domain", PStr "i.redd.it"); ("url", PStr "http://i.redd.it/x.jpg");
            ("preview", Sample.preview_of "http://p")]
           Sample.w0).
  - split; reflexivity.
  - split; [reflexivity | simpl; lia].
  - intros arg. eexists. reflexivity.
Defined.

(** ** Two whole runs of [download_post] *)

Section WholeRuns.

Variable env : Env.

(** The validator on a file of zero bytes. *)
Lemma check_empty name w :
  fs w !! name = Some [] ->
  check_fault env name (Some []) = None ->
  check_if_empty_and_delete_file env name w
  = (Ok true, set_fs (delete name (fs w)) w).
Proof.
  intros Hf Hc. unfold check_if_empty_and_delete_file. now rewrite Hf, Hc.
Qed.

(** [ireddit] when the transfer goes through. *)
Lemma ireddit_complete self name r w :
  construct_local_filename env (_title self) (ByUrl (_media_url self))
    (_local_download_dir self) = Ok name ->
  fs w !! name = None ->
  requests_get env (_media_url self) = Ok r ->
  status_error r = None ->
  stream_error r = None ->
  disk_ok env name ->
  ireddit env self w
  = (Ok (Some name),
     set_fs (<[name := concat (iter_content r)]> (fs w))
       (emit (EvGet (_media_url self)) w)).
Proof.
  intros Hn Hf Hr Hs He Hd. unfold ireddit. apply try_ok.
  rewrite (download_to_local_file_ok env self _ name w Hn).
  now rewrite (core_download_complete env _ name r w Hf Hr Hs He Hd).
Qed.

End WholeRuns.

(** X14.  The good case of a direct host.  For an [i.redd.it] post
    under the quota whose file is not there yet, when the request is
    answered with a success status and a body that holds bytes, and
    neither the disk, the validator nor the counter fails,
    [download_post] makes exactly one request, for the media URL,
    leaves the bytes of the body in the file named after the title and
    the URL, calls [increment_counter(True)] once and the counter goes
    up by one; nothing is logged and the preview is not touched. *)
Theorem X14_direct_post_is_downloaded_and_counted env cls post_details name r w :
  dict_get "domain" post_details = PStr "i.redd.it" ->
  is_none (dict_get "url" post_details) = false ->
  under_quota env cls w ->
  construct_local_filename env (dict_get "title" post_details)
    (ByUrl (dict_get "url" post_details)) (local_download_dir cls) = Ok name ->
  fs w !! name = None ->
  requests_get env (dict_get "url" post_details) = Ok r ->
  status_error r = None ->
  stream_error r = None ->
  concat (iter_content r) <> [] ->
  disk_ok env name ->
  check_fault env name (Some (concat (iter_content r))) = None ->
  increment_fault env true (count w) = None ->
  download_post env cls post_details w
  = (Ok PNone,
     mkWorld (<[name := concat (iter_content r)]> (fs w)) (count w + 1)
       (trace w ++ [EvGet (dict_get "url" post_details); EvIncrement true])).
Proof.
  intros Hdom Hurl Hq Hn Hf Hr Hs He Hc Hd Hcf Hif.
  set (self := helper_of cls post_details).
  set (w1 := set_fs (<[name := concat (iter_content r)]> (fs w))
               (emit (EvGet (dict_get "url" post_details)) w)).
  assert (Ei : ireddit env self w = (Ok (Some name), w1))
    by now apply (ireddit_complete env self name r w).
  assert (Ep : primary_stage env self w = (Ok true, w1)).
  { unfold primary_stage. cbn [_domain self helper_of]. rewrite Hdom.
    cbn [domain_mappings String.eqb Ascii.eqb Bool.eqb].
    rewrite bind_lift_ok. unfold bind at 1. rewrite Ei. unfold bind.
    rewrite (check_valid env name (concat (iter_content r)) w1);
      [reflexivity | apply lookup_insert_eq | exact Hc | exact Hcf]. }
  assert (Hwf : well_formed post_details)
    by (split; [now rewrite Hdom | exact Hurl]).
  rewrite (download_post_reports env cls post_details w true w1 Hq Hwf
             (download_primary_ok env self w w1 Ep)).
  cbn [count w1 set_fs emit]. rewrite Hif.
  unfold set_count, w1, set_fs. cbn [fs count trace emit].
  now rewrite <- app_assoc.
Qed.

Lemma X14_direct_post_witness :
  download_post (Sample.env_of Sample.no_lookup Sample.net_all) Sample.cls
    (Sample.post "i.redd.it" "http://i.redd.it/x.jpg" "cat" []) Sample.w0
  = (Ok PNone,
     mkWorld {[ "dl/cat_http://i.redd.it/x.jpg" := [Byte.x2a] ]} 1
       [EvGet (PStr "http://i.redd.it/x.jpg"); EvIncrement true]).
Proof.
  rewrite (X14_direct_post_is_downloaded_and_counted
             (Sample.env_of Sample.no_lookup Sample.net_all) Sample.cls
             (Sample.post "i.redd.it" "http://i.redd.it/x.jpg" "cat" [])
             "dl/cat_http://i.redd.it/x.jpg" (mkResponse None [[Byte.x2a]] None)
             Sample.w0 eq_refl eq_refl (conj eq_refl eq_refl) eq_refl eq_refl
             eq_refl eq_refl eq_refl (fun H => nil_cons (eq_sym H))
             (conj eq_refl (fun _ _ => eq_refl)) eq_refl eq_refl).
  vm_compute. reflexivity.
Defined.

(** X15.  The empty file and the fallback.  For an [i.redd.it] post
    under the quota whose request is answered with a success status
    and a body without bytes, [download_post] creates the empty file,
    has it deleted by the validator, and turns to the preview: when
    the post has a preview URL whose request brings bytes (and
    neither the disk, the validator nor the counter fails), the call
    makes two requests, first the media URL and then the preview URL,
    leaves only the preview file behind, calls
    [increment_counter(True)] once and the counter goes up by one. *)
Theorem X15_empty_body_falls_back_to_the_preview
    env cls post_details name r1 pu jpg r2 w :
  dict_get "domain" post_details = PStr "i.redd.it" ->
  is_none (dict_get "url" post_details) = false ->
  under_quota env cls w ->
  construct_local_filename env (dict_get "title" post_details)
    (ByUrl (dict_get "url" post_details)) (local_download_dir cls) = Ok name ->
  fs w !! name = None ->
  requests_get env (dict_get "url" post_details) = Ok r1 ->
  status_error r1 = None -> stream_error r1 = None ->
  concat (iter_content r1) = [] ->
  disk_ok env name ->
  check_fault env name (Some []) = None ->
  dict_has "preview" post_details = true ->
  preview_url post_details = Ok pu ->
  preview_name env (helper_of cls post_details) = Ok jpg ->
  fs w !! jpg = None ->
  requests_get env pu = Ok r2 ->
  status_error r2 = None -> stream_error r2 = None ->
  concat (iter_content r2) <> [] ->
  disk_ok env jpg ->
  check_fault env jpg (Some (concat (iter_content r2))) = None ->
  increment_fault env true (count w) = None ->
  download_post env cls post_details w
  = (Ok PNone,
     mkWorld (<[jpg := concat (iter_content r2)]> (fs w)) (count w + 1)
       (trace w ++ [EvGet (dict_get "url" post_details); EvGet pu; EvIncrement true])).
Proof.
  intros Hdom Hurl Hq Hn Hf Hr1 Hs1 He1 Hc1 Hd1 Hcf1
         Hp Hpu Hj Hfj Hr2 Hs2 He2 Hc2 Hd2 Hcf2 Hif.
  set (self := helper_of cls post_details).
  set (u := dict_get "url" post_details) in *.
  set (w1 := set_fs (<[name := []]> (fs w)) (emit (EvGet u) w)).
  set (w2 := emit (EvGet u) w).
  set (w3 := set_fs (<[jpg := concat (iter_content r2)]> (fs w2)) (emit (EvGet pu) w2)).
  assert (Ei : ireddit env self w = (Ok (Some name), w1)).
  { unfold w1. rewrite <- Hc1.
    now apply (ireddit_complete env self name r1 w). }
  assert (Ep : primary_stage env self w = (Ok false, w2)).
  { unfold primary_stage. cbn [_domain self helper_of]. rewrite Hdom.
    cbn [domain_mappings String.eqb Ascii.eqb Bool.eqb].
    rewrite bind_lift_ok. unfold bind at 1. rewrite Ei. unfold bind.
    rewrite (check_empty env name w1) by (try apply lookup_insert_eq; exact Hcf1).
    unfold w1, w2, set_fs, emit. cbn [fs count trace ret negb].
    now rewrite (delete_insert_id _ _ _ Hf). }
  assert (Ef : fallback_stage env self w2 = (Ok true, w3)).
  { unfold fallback_stage, bind at 1.
    rewrite (naive_preview_fetches env self pu jpg w2 Hp Hpu Hj).
    rewrite (core_download_complete env pu jpg r2 w2 Hfj Hr2 Hs2 He2 Hd2).
    cbn [snd]. fold w3. unfold bind.
    rewrite (check_valid env jpg (concat (iter_content r2)) w3);
      [reflexivity | apply lookup_insert_eq | exact Hc2 | exact Hcf2]. }
  assert (Ed : download env self w = (Ok true, w3)).
  { rewrite (download_fallback env self w w2 Ep). now rewrite Ef. }
  assert (Hwf : well_formed post_details)
    by (split; [now rewrite Hdom | exact Hurl]).
  rewrite (download_post_reports env cls post_details w true w3 Hq Hwf Ed).
  cbn [count w3 w2 set_fs emit]. rewrite Hif.
  unfold set_count, w3, w2, set_fs. cbn [fs count trace emit].
  now rewrite <- !app_assoc.
Qed.

Lemma X15_empty_body_witness :
  let net := fun v =>
    match v with
    | PStr "http://p" => Ok (mkResponse None [[Byte.x2a]] None)
    | _ => Ok (mkResponse None [[]] None)
    end in
  download_post (Sample.env_of Sample.no_lookup net) Sample.cls
    (Sample.post "i.redd.it" "http://i.redd.it/x.jpg" "cat"
       [("preview", Sample.preview_of "http://p")])
    Sample.w0
  = (Ok PNone,
     mkWorld {[ "dl/cat.jpg" := [Byte.x2a] ]} 1
       [EvGet (PStr "http://i.redd.it/x.jpg"); EvGet (PStr "http://p");
        EvIncrement true]).
Proof.
  cbv zeta.
  rewrite (X15_empty_body_falls_back_to_the_preview
             (Sample.env_of Sample.no_lookup
                (fun v =>
                   match v with
                   | PStr "http://p" => Ok (mkResponse None [[Byte.x2a]] None)
                   | _ => Ok (mkResponse None [[]] None)
                   end))
             Sample.cls
             (Sample.post "i.redd.it" "http://i.redd.it/x.jpg" "cat"
                [("preview", Sample.preview_of "http://p")])
             "dl/cat_http://i.redd.it/x.jpg" (mkResponse None [[]] None)
             (PStr "http://p") "dl/cat.jpg" (mkResponse None [[Byte.x2a]] None)
             Sample.w0 eq_refl eq_refl (conj eq_refl eq_refl) eq_refl eq_refl
             eq_refl eq_refl eq_refl eq_refl
             (conj eq_refl (fun _ _ => eq_refl)) eq_refl
             eq_refl eq_refl eq_refl eq_refl
             eq_refl eq_refl eq_refl (fun H => nil_cons (eq_sym H))
             (conj eq_refl (fun _ _ => eq_refl)) eq_refl eq_refl).
  vm_compute. reflexivity.
Defined.

(** ** One worker, many posts *)

Section Batch.

Variable env : Env.
Variable cls : MediaDownloader.

Lemma download_posts_cons post_details rest w :
  exists r w1,
    download_post env cls post_details w = (Ok r, w1) /\
    download_posts env cls (post_details :: rest) w = download_posts env cls rest w1.
Proof.
  destruct (download_post_total env cls post_details w) as (r & w1 & E).
  exists r, w1. split; [exact E |].
  cbn [download_posts]. unfold bind. now rewrite E.
Qed.

Lemma download_posts_counter posts w :
  let w' := snd (download_posts env cls posts w) in
  fst (download_posts env cls posts w) = Ok tt /\
  count w <= count w' <= count w + Z.of_nat (length posts) /\
  (count w <= max_posts_download cls -> count w' <= max_posts_download cls).
Proof.
  cbv zeta. revert w. induction posts as [|p rest IH]; intros w.
  - cbn. repeat split; lia.
  - destruct (download_posts_cons p rest w) as (r & w1 & E & ->).
    pose proof (download_post_counter env cls p w) as Hc.
    rewrite E in Hc. cbn [snd] in Hc.
    destruct (IH w1) as (H1 & H2 & H3).
    split; [exact H1 |]. cbn [length]. split; [lia |].
    intros Hle. apply H3. lia.
Qed.

Lemma download_posts_after_quota posts w :
  (forall c, get_counter_fault env c = None) ->
  max_posts_download cls <= count w ->
  download_posts env cls posts w = (Ok tt, w).
Proof.
  intros Hf Hge. induction posts as [|p rest IH]; [reflexivity |].
  cbn [download_posts]. unfold bind.
  now rewrite (download_post_skip env cls p w (Hf _) Hge).
Qed.

End Batch.

(** X16.  One worker that calls [download_post] on a list of posts, one
    after the other, never sees an exception, never lowers the counter
    and raises it by the number of posts at most; and it keeps the
    maximum strictly: a counter that starts at the maximum or below
    never goes above it. *)
Theorem X16_single_worker_keeps_the_maximum env cls posts w :
  let w' := snd (download_posts env cls posts w) in
  fst (download_posts env cls posts w) = Ok tt /\
  count w <= count w' <= count w + Z.of_nat (length posts) /\
  (count w <= max_posts_download cls -> count w' <= max_posts_download cls).
Proof. apply download_posts_counter. Qed.

Lemma X16_single_worker_witness :
  count
    (snd (download_posts (Sample.env_of Sample.no_lookup Sample.net_all)
            (mkMediaDownloader "dl" 2)
            [Sample.post "i.redd.it" "http://i.redd.it/1.jpg" "a" [];
             Sample.post "i.redd.it" "http://i.redd.it/2.jpg" "b" [];
             Sample.post "i.redd.it" "http://i.redd.it/3.jpg" "c" []]
            Sample.w0))
  <= 2.
Proof.
  apply (X16_single_worker_keeps_the_maximum
           (Sample.env_of Sample.no_lookup Sample.net_all)
           (mkMediaDownloader "dl" 2)
           [Sample.post "i.redd.it" "http://i.redd.it/1.jpg" "a" [];
            Sample.post "i.redd.it" "http://i.redd.it/2.jpg" "b" [];
            Sample.post "i.redd.it" "http://i.redd.it/3.jpg" "c" []]
           Sample.w0).
  simpl. lia.
Defined.

(** X17.  Once the counter is at the maximum, the rest of the posts of
    a worker cost nothing: with a counter that can be read, every
    further [download_post] returns at once, and the world after the
    whole list is the world before it. *)
Theorem X17_posts_after_the_quota_change_nothing env cls posts w :
  (forall c, get_counter_fault env c = None) ->
  max_posts_download cls <= count w ->
  download_posts env cls posts w = (Ok tt, w).
Proof. apply download_posts_after_quota. Qed.

Lemma X17_posts_after_the_quota_witness :
  download_posts (Sample.env_of Sample.no_lookup Sample.net_all) Sample.cls
    [Sample.post "i.redd.it" "http://i.redd.it/1.jpg" "a" [];
     Sample.post "i.imgur.com" "http://i.imgur.com/2.gifv" "b" []]
    (mkWorld ∅ 5 [])
  = (Ok tt, mkWorld ∅ 5 []).
Proof.
  apply X17_posts_after_the_quota_change_nothing;
    [intros c; reflexivity | simpl; lia].
Defined.

(** ** The preview metadata *)

(** What [d[k]] raises is a [KeyError] whose message is the key
    between quotes. *)
Lemma dict_item_raises k d e :
  dict_item k d = Raise e -> e = Exn "KeyError" ("'" ++ k ++ "'").
Proof.
  induction d as [|[k' v] d IH]; simpl.
  - now intros [= <-].
  - destruct (String.eqb k k'); [discriminate | exact IH].
Qed.

Lemma py_getitem_str_raises v k e :
  py_getitem_str v k = Raise e ->
  exn_class e = "KeyError" \/ exn_class e = "TypeError".
Proof.
  destruct v; simpl; try (intros [= <-]; now right).
  intros H. apply dict_item_raises in H as ->. now left.
Qed.

(** X18.  The preview URL is read at one place only:
    [preview['images'][0]['source']['url']] yields a URL exactly when
    [preview] is a dict whose [images] is a list that starts with a
    dict whose [source] is a dict with a [url]; the other images are
    not looked at.  With a [preview] of any other shape the expression
    raises a [KeyError], a [TypeError] or an [IndexError], and the
    preview download logs its message after
    ['Error downloading naive preview: '], returns [None], requests
    nothing and leaves the files as they are. *)
Theorem X18_preview_url_is_the_source_of_the_first_image env self :
  (forall u,
     preview_url (_post_details self) = Ok u <->
     exists kv1 kv2 rest kv3,
       dict_item "preview" (_post_details self) = Ok (PDict kv1) /\
       dict_item "images" kv1 = Ok (PList (PDict kv2 :: rest)) /\
       dict_item "source" kv2 = Ok (PDict kv3) /\
       dict_item "url" kv3 = Ok u) /\
  (forall e w,
     dict_has "preview" (_post_details self) = true ->
     preview_url (_post_details self) = Raise e ->
     _attempt_naive_preview_download env self w
     = (Ok None, emit (EvLog ("Error downloading naive preview: " ++ exn_msg e)) w)) /\
  (forall e,
     preview_url (_post_details self) = Raise e ->
     In (exn_class e) ["KeyError"; "TypeError"; "IndexError"]).
Proof.
  split; [| split].
  - intros u. unfold preview_url. split.
    + destruct (dict_item "preview" (_post_details self)) as [v1|e] eqn:E1;
        [| discriminate].
      destruct v1 as [| | | | | |kv1]; try discriminate. cbn [py_getitem_str].
      destruct (dict_item "images" kv1) as [v2|e] eqn:E2; [| discriminate].
      destruct v2 as [| | | |s|[|x rest]|]; try discriminate;
        try (destruct s; discriminate).
      cbn [py_getitem_0].
      destruct x as [| | | | | |kv2]; try discriminate. cbn [py_getitem_str].
      destruct (dict_item "source" kv2) as [v3|e] eqn:E3; [| discriminate].
      destruct v3 as [| | | | | |kv3]; try discriminate. cbn [py_getitem_str].
      intros Hu. exists kv1, kv2, rest, kv3. now repeat split.
    + intros (kv1 & kv2 & rest & kv3 & -> & H2 & H3 & H4).
      cbn [py_getitem_str]. rewrite H2. cbn [py_getitem_0 py_getitem_str].
      now rewrite H3.
  - intros e w Hp He. unfold _attempt_naive_preview_download.
    now rewrite Hp, He.
  - intros e. unfold preview_url.
    assert (Hs : forall v k, py_getitem_str v k = Raise e ->
                 In (exn_class e) ["KeyError"; "TypeError"; "IndexError"]).
    { intros v k H. apply py_getitem_str_raises in H as [-> | ->]; simpl; auto. }
    destruct (dict_item "preview" (_post_details self)) as [v1|e1] eqn:E1.
    2:{ intros [= <-]. apply dict_item_raises in E1 as ->. simpl. auto. }
    destruct (py_getitem_str v1 "images") as [v2|e2] eqn:E2.
    2:{ intros [= <-]. eauto. }
    destruct (py_getitem_0 v2) as [v3|e3] eqn:E3.
    2:{ intros [= <-]. revert E3.
        destruct v2 as [| | | |[|]|[|]|]; simpl; intros [= <-]; simpl; auto. }
    destruct (py_getitem_str v3 "source") as [v4|e4] eqn:E4.
    2:{ intros [= <-]. eauto. }
    eauto.
Qed.

(** A [preview] without [images]: the log line is that of
    [KeyError('images')]. *)
Lemma X18_preview_url_witness :
  _attempt_naive_preview_download (Sample.env_of Sample.no_lookup Sample.net_all)
    (mkMediaDownloadHelper (PStr "x.com") (PStr "http://x.com/1") (PStr "t")
       [("preview", PDict [])] "dl")
    Sample.w0
  = (Ok None,
     mkWorld ∅ 0 [EvLog "Error downloading naive preview: 'images'"]).
Proof.
  exact (proj1 (proj2 (X18_preview_url_is_the_source_of_the_first_image
                  (Sample.env_of Sample.no_lookup Sample.net_all)
                  (mkMediaDownloadHelper (PStr "x.com") (PStr "http://x.com/1")
                     (PStr "t") [("preview", PDict [])] "dl")))
           (Exn "KeyError" "'images'") Sample.w0 eq_refl eq_refl).
Defined.

(** ** [imgur] and [ireddit] *)

(** X19.  On a media URL that is a string without ['gifv'], [imgur]
    does what [ireddit] does: the two return the same file name or
    both [None], make the same requests and leave the same files; only
    the name in the log line of a failure differs. *)
Theorem X19_imgur_without_gifv_is_ireddit env self s w :
  _media_url self = PStr s ->
  str_contains "gifv" s = false ->
  fst (imgur env self w) = fst (ireddit env self w) /\
  fs (snd (imgur env self w)) = fs (snd (ireddit env self w)) /\
  gets_of (trace (snd (imgur env self w)))
  = gets_of (trace (snd (ireddit env self w))).
Proof.
  intros Hu Hs. rewrite (imgur_unfold env self s w Hu).
  unfold imgur_target, ireddit. rewrite Hs, Hu. unfold try_except.
  destruct (_download_to_local_file env self (PStr s) w) as [[r|e] w1].
  - now repeat split.
  - repeat split. simpl. now rewrite !gets_of_app.
Qed.

Lemma X19_imgur_without_gifv_witness :
  fst (imgur (Sample.env_of Sample.no_lookup Sample.net_all)
         (mkMediaDownloadHelper (PStr "i.imgur.com") (PStr "http://i.imgur.com/a.png")
            (PStr "t") [] "dl") Sample.w0)
  = fst (ireddit (Sample.env_of Sample.no_lookup Sample.net_all)
           (mkMediaDownloadHelper (PStr "i.imgur.com") (PStr "http://i.imgur.com/a.png")
              (PStr "t") [] "dl") Sample.w0).
Proof.
  apply (X19_imgur_without_gifv_is_ireddit
           (Sample.env_of Sample.no_lookup Sample.net_all)
           (mkMediaDownloadHelper (PStr "i.imgur.com") (PStr "http://i.imgur.com/a.png")
              (PStr "t") [] "dl")
           "http://i.imgur.com/a.png" Sample.w0); reflexivity.
Defined.
